(** * The MCP client agent of [py-client/client.py]

    A shallow embedding of [MCPClientAgent]: the transcript ([history]),
    the tool-call resolution loop ([process_user_query]) and the console
    driver ([run_interactive_session]), followed by the properties of the
    loop that the specification states.

    The chat endpoint, the tool provider, the [json] module and the console
    are outside the repository.  The [json] functions and the provider's
    [call_tool] are variables of the section below; the chat endpoint is a
    script of outcomes that the loop consumes, one per request; the console
    is the list of lines that [input] will return.  Every effect that a
    property talks about is recorded, in program order, in a trace of
    [Event]s. *)

From Stdlib Require Import List String Ascii Bool Arith ZArith Lia.
Import ListNotations.
Open Scope string_scope.
Open Scope list_scope.

(** ** Python strings

    A [string] stands for a Python [str] whose code points are below 256,
    a set that [str.lower] and [str.strip] map into itself. *)

Module PyStr.

(** [str.isspace] on one code point below 256: TAB..CR, FS..US, SPACE,
    NEL and NBSP. *)
Definition isspace (c : ascii) : bool :=
  let n := nat_of_ascii c in
  (((9 <=? n) && (n <=? 13)) || ((28 <=? n) && (n <=? 32))
   || (n =? 133) || (n =? 160))%nat.

(** [str.lower] on one code point below 256: A..Z and the capital
    letters of Latin-1 (all of 192..222 but the multiplication sign). *)
Definition lower_char (c : ascii) : ascii :=
  let n := nat_of_ascii c in
  if (((65 <=? n) && (n <=? 90))
      || ((192 <=? n) && (n <=? 222) && negb (n =? 215)))%nat
  then ascii_of_nat (n + 32)
  else c.

Fixpoint lower (s : string) : string :=
  match s with
  | EmptyString => EmptyString
  | String c r => String (lower_char c) (lower r)
  end.

Fixpoint lstrip (s : string) : string :=
  match s with
  | EmptyString => EmptyString
  | String c r => if isspace c then lstrip r else s
  end.

Fixpoint rstrip (s : string) : string :=
  match s with
  | EmptyString => EmptyString
  | String c r =>
      match rstrip r with
      | EmptyString => if isspace c then EmptyString else String c EmptyString
      | r' => String c r'
      end
  end.

(** [s.strip()] with no argument. *)
Definition strip (s : string) : string := rstrip (lstrip s).

(** Truth value of a [str]: the empty string is false. *)
Definition truthy (s : string) : bool :=
  match s with
  | EmptyString => false
  | String _ _ => true
  end.

(** [x in l] for a list of strings. *)
Definition mem (x : string) (l : list string) : bool :=
  existsb (String.eqb x) l.

(** A string made of white space only (the empty one included). *)
Fixpoint blank (s : string) : bool :=
  match s with
  | EmptyString => true
  | String c r => isspace c && blank r
  end.

End PyStr.

(** ** Data model *)

(** JSON values as [json.loads] builds them (numbers are integers here). *)
#[warnings="-register-all"]
Inductive json : Type :=
| JNull
| JBool (b : bool)
| JInt (z : Z)
| JStr (s : string)
| JList (l : list json)
| JDict (kv : list (string * json)).

(** Exceptions.  The first four are raised by the interpreter on the code
    of the client itself; [LibraryError] is anything raised by the chat
    endpoint, the tool provider, the transport or the [json] module.  All
    are subclasses of [Exception], which is what the handlers of lines 149
    and 166 catch.  What is a [BaseException] only (a cancellation at an
    [await], a keyboard interrupt) passes those handlers and has no value
    here: the properties below speak of exceptions of class [Exception]. *)
Inductive exn : Type :=
| AttributeError (what : string)
| TypeError (what : string)
| IndexError (what : string)
| EOFError
| LibraryError (msg : string).

(** One entry of [response_message.tool_calls]. *)
Record ToolCall : Type := mkToolCall {
  tc_id : string;          (* tool_call.id *)
  tc_name : string;        (* tool_call.function.name *)
  tc_arguments : string    (* tool_call.function.arguments, JSON text *)
}.

(** [completion.choices[0].message]. *)
Record ResponseMessage : Type := mkResponse {
  rm_content : option string;
  rm_tool_calls : option (list ToolCall)
}.

(** One element of [tool_calls_to_append]:
    [{"tool_call_id": .., "function": {"name": ..}, "content": ..}]. *)
Record ToolResultEntry : Type := mkEntry {
  tool_call_id : string;
  function_name : string;
  content : string
}.

(** What [self.history] holds: the dictionaries built by the client, and the
    response objects of the endpoint, appended as they are. *)
Inductive Message : Type :=
| MDict (role : string) (text : string)      (* {"role": r, "content": t} *)
| MResponse (m : ResponseMessage)            (* response_message *)
| MToolResults (results : list ToolResultEntry).
                                  (* {"role": "tool", "tool_calls": results} *)

Definition role (m : Message) : string :=
  match m with
  | MDict r _ => r
  | MResponse _ => "assistant"
  | MToolResults _ => "tool"
  end.

(** The content of a message, [m["content"]] or [m.content]: the
    dictionary of lines 132-135 has the keys ["role"] and ["tool_calls"] and
    no content of its own, and the content of a response may be [None]. *)
Definition message_content (m : Message) : option string :=
  match m with
  | MDict _ text => Some text
  | MResponse r => rm_content r
  | MToolResults _ => None
  end.

(** A tool of the provider, as [self.session.tools()] lists it. *)
Record Tool : Type := mkTool {
  tool_name : string;
  json_schema : json
}.

(** The value of [await self.session.call_tool(..)]: an MCP [Message]
    wrapping its data, or any other value. *)
Inductive ToolOutput : Type :=
| Wrapped (data : json)
| Bare (v : json).

(** What start-up meets (lines 43-61): building the client of the endpoint
    raises, building the server parameters of line 47 raises, entering
    [stdio_client(..)] raises (its timeout included),
    [self.session.tools()] raises, or the provider lists its tools. *)
Inductive StartUp : Type :=
| ClientFails (e : exn)
| ParametersFail (e : exn)
| ConnectFails (e : exn)
| ListingFails (e : exn)
| Serves (tools : list Tool).

(** Outcome of one request to the endpoint (lines 84-91): [create(..)] or
    the access to [choices[0].message] raises, or there is a message. *)
Inductive LLMOutcome : Type :=
| LLMRaise (e : exn)
| LLMReply (m : ResponseMessage).

(** Lines written by [print]. *)
Inductive Console : Type :=
| PInitializing
| PConnected (server : string)
| PFound (n : nat)
| PReady
| PToolCallRequested
| PCalling (name : string) (args : json)
| PToolResult (v : json)
| PFinalAnswer (answer : option string)
| PError (e : exn)
| PExiting
| PCritical (e : exn).

(** Observable effects, in program order. *)
Inductive Event : Type :=
| EvPrint (line : Console)
| EvInput (line : string)                 (* input("[YOU] > ") returned *)
| EvConnect (command : list string) (server : string)
| EvListTools                             (* self.session.tools() *)
| EvLLMRequest (model : string) (messages : list Message) (tools : list json)
| EvCallTool (name : string) (kwargs : list (string * json))
| EvPending (entry : ToolResultEntry)     (* tool_calls_to_append.append *)
| EvHistoryAppend (m : Message)           (* self.history.append *)
| EvHistoryPop (m : Message)              (* self.history.pop *)
| EvClose.                                (* self.exit_stack.aclose *)

(** The fields of [MCPClientAgent].  [tool_definitions] does not exist as
    an attribute before [initialize] sets it. *)
Record Agent : Type := mkAgent {
  server_command : list string;
  server_name : string;
  model_name : string;
  client : bool;                          (* self.client is not None *)
  session : bool;                         (* self.session is not None *)
  history : list Message;
  tool_definitions : option (list json)
}.

(** [MCPClientAgent(command, server_name, model_name)]. *)
Definition new_agent (command : list string) (name model : string) : Agent :=
  {| server_command := command; server_name := name; model_name := model;
     client := false; session := false; history := [];
     tool_definitions := None |}.

Definition set_history (a : Agent) (h : list Message) : Agent :=
  {| server_command := server_command a; server_name := server_name a;
     model_name := model_name a; client := client a; session := session a;
     history := h; tool_definitions := tool_definitions a |}.

(** [self.history.append(m)]. *)
Definition history_append (a : Agent) (m : Message) : Agent :=
  set_history a (history a ++ [m]).

(** [l.pop()]: the list without its last element and that element; [None]
    where Python raises [IndexError]. *)
Fixpoint list_pop {A : Type} (l : list A) : option (list A * A) :=
  match l with
  | [] => None
  | x :: r =>
      match list_pop r with
      | None => Some ([], x)
      | Some (r', y) => Some (x :: r', y)
      end
  end.

(** Truth value of [response_message.tool_calls]: [None] and the empty
    list are false. *)
Definition requested_calls (m : ResponseMessage) : list ToolCall :=
  match rm_tool_calls m with
  | Some l => l
  | None => []
  end.

Definition has_tool_calls (m : ResponseMessage) : bool :=
  match requested_calls m with
  | [] => false
  | _ :: _ => true
  end.

(** Python values that a call of the agent's methods can return. *)
Inductive PyValue : Type :=
| PyNone
| PyText (s : string).

(** How a run of a block of the client ends: it ran to its end, an
    exception left it, or it is suspended in an [await] of the chat endpoint
    for which the script holds no outcome. *)
Inductive LoopEnd : Type :=
| Finished
| Raised (e : exn)
| Awaiting.

(** What one iteration of the [while True] loop decides. *)
Inductive Next : Type :=
| Continue
| Stop (e : LoopEnd).

(** How a call of a method ends. *)
Inductive Completion : Type :=
| Returned (v : PyValue)
| Escaped (e : exn)
| Blocked.

(** The messages that a completed tool-call iteration appends (lines
    130-135): the request of the endpoint, then the results. *)
Definition turn_messages (turn : ResponseMessage * list ToolResultEntry)
  : list Message :=
  [MResponse (fst turn); MToolResults (snd turn)].

(** The messages of [after] that were appended to [before]. *)
Definition appended (before after : list Message) : list Message :=
  skipn (List.length before) after.

Definition count_role (r : string) (l : list Message) : nat :=
  List.length (filter (fun m => String.eqb (role m) r) l).

(** The tool invocations of a trace, in program order. *)
Fixpoint invocations (t : list Event) : list (string * list (string * json)) :=
  match t with
  | [] => []
  | EvCallTool name kwargs :: t' => (name, kwargs) :: invocations t'
  | _ :: t' => invocations t'
  end.

Definition is_history_append (ev : Event) : bool :=
  match ev with
  | EvHistoryAppend _ => true
  | _ => false
  end.

Definition is_list_tools (ev : Event) : bool :=
  match ev with
  | EvListTools => true
  | _ => false
  end.

(** The tool catalogs that the requests of a trace carry. *)
Fixpoint catalogs_sent (t : list Event) : list (list json) :=
  match t with
  | [] => []
  | EvLLMRequest _ _ tools :: t' => tools :: catalogs_sent t'
  | _ :: t' => catalogs_sent t'
  end.

(** The queries that a trace dispatches: [process_user_query] starts by
    appending the user message. *)
Fixpoint queries_dispatched (t : list Event) : list string :=
  match t with
  | [] => []
  | EvHistoryAppend (MDict "user" q) :: t' => q :: queries_dispatched t'
  | _ :: t' => queries_dispatched t'
  end.

(** [same_setup a a1]: [a1] is [a] but for its transcript. *)
Definition same_setup (a a1 : Agent) : Prop :=
  server_command a1 = server_command a /\
  server_name a1 = server_name a /\
  model_name a1 = model_name a /\
  client a1 = client a /\
  session a1 = session a /\
  tool_definitions a1 = tool_definitions a.

(** [reuses_catalog defs ev]: [ev] is no fetch of the provider's catalog,
    and a request to the endpoint carries the catalog [defs]. *)
Definition reuses_catalog (defs : option (list json)) (ev : Event) : Prop :=
  match ev with
  | EvListTools => False
  | EvLLMRequest _ _ tools => defs = Some tools
  | _ => True
  end.

(** [carries id m]: [m] is a tool-role message with a result for the call
    [id]. *)
Definition carries (id : string) (m : Message) : bool :=
  match m with
  | MToolResults results =>
      existsb (fun e => String.eqb (tool_call_id e) id) results
  | _ => false
  end.

(** The transcript that the appends and pops of a trace make of [h]. *)
Fixpoint replay (h : list Message) (t : list Event) : list Message :=
  match t with
  | [] => h
  | EvHistoryAppend m :: t' => replay (h ++ [m]) t'
  | EvHistoryPop _ :: t' => replay (removelast h) t'
  | _ :: t' => replay h t'
  end.

(** What a recording test double sees: the transcript at the moment of each
    tool invocation of [t], when [t] starts with the transcript [h]. *)
Fixpoint transcripts_at_calls (h : list Message) (t : list Event)
  : list (list Message) :=
  match t with
  | [] => []
  | EvHistoryAppend m :: t' => transcripts_at_calls (h ++ [m]) t'
  | EvHistoryPop _ :: t' => transcripts_at_calls (removelast h) t'
  | EvCallTool _ _ :: t' => h :: transcripts_at_calls h t'
  | _ :: t' => transcripts_at_calls h t'
  end.

(** *** Vocabulary of the properties of the session *)

(** The test of line 160. *)
Definition is_exit_command (line : string) : bool :=
  PyStr.mem (PyStr.lower line) ["exit"; "quit"].

(** The lines that come before the first exit command. *)
Fixpoint before_exit (inputs : list string) : list string :=
  match inputs with
  | [] => []
  | line :: rest =>
      if is_exit_command line then [] else line :: before_exit rest
  end.

(** The queries of a console session: the stripped text of the lines that
    are not blank, up to the first exit command. *)
Definition console_queries (inputs : list string) : list string :=
  map PyStr.strip
    (filter (fun line => negb (PyStr.blank line)) (before_exit inputs)).

(** A transcript in which every request for tool calls is followed by its
    results, and results only follow their request: the tool-role message
    that comes after a response with tool calls carries the identifiers of
    the calls, in their order. *)
Inductive well_paired : list Message -> Prop :=
| wp_nil : well_paired []
| wp_dict r text l : well_paired l -> well_paired (MDict r text :: l)
| wp_answer m l :
    has_tool_calls m = false -> well_paired l ->
    well_paired (MResponse m :: l)
| wp_turn m results l :
    has_tool_calls m = true ->
    map tool_call_id results = map tc_id (requested_calls m) ->
    well_paired l ->
    well_paired (MResponse m :: MToolResults results :: l).

(** The events of the agent loop: its prints, the requests to the
    endpoint, the tool invocations and the changes of the transcript. *)
Definition agent_event (ev : Event) : bool :=
  match ev with
  | EvPrint PToolCallRequested | EvPrint (PCalling _ _)
  | EvPrint (PToolResult _) | EvPrint (PFinalAnswer _)
  | EvPrint (PError _) => true
  | EvLLMRequest _ _ _ | EvCallTool _ _ | EvPending _
  | EvHistoryAppend _ | EvHistoryPop _ => true
  | _ => false
  end.

(** The events of the console loop: those of the agent loop, the lines
    read and the word of farewell. *)
Definition console_event (ev : Event) : bool :=
  match ev with
  | EvInput _ | EvPrint PExiting => true
  | _ => agent_event ev
  end.

(** The events of the [for] loop over the tool calls. *)
Definition for_loop_event (ev : Event) : bool :=
  match ev with
  | EvPrint (PCalling _ _) | EvPrint (PToolResult _) => true
  | EvCallTool _ _ | EvPending _ => true
  | _ => false
  end.

(** An append of a dictionary message (the system or a user message). *)
Definition appends_dict (ev : Event) : bool :=
  match ev with
  | EvHistoryAppend (MDict _ _) => true
  | _ => false
  end.

Definition is_close (ev : Event) : bool :=
  match ev with
  | EvClose => true
  | _ => false
  end.

Definition is_input (ev : Event) : bool :=
  match ev with
  | EvInput _ => true
  | _ => false
  end.

Definition is_final_answer (ev : Event) : bool :=
  match ev with
  | EvPrint (PFinalAnswer _) => true
  | _ => false
  end.

Definition is_error (ev : Event) : bool :=
  match ev with
  | EvPrint (PError _) => true
  | _ => false
  end.

(** [requests_carry model h t]: every request to the endpoint in [t] names
    [model] and carries the transcript as the appends and pops before it
    have made it of [h]. *)
Fixpoint requests_carry (model : string) (h : list Message) (t : list Event)
  : Prop :=
  match t with
  | [] => True
  | EvLLMRequest model' messages _ :: t' =>
      model' = model /\ messages = h /\ requests_carry model h t'
  | EvHistoryAppend m :: t' => requests_carry model (h ++ [m]) t'
  | EvHistoryPop _ :: t' => requests_carry model (removelast h) t'
  | _ :: t' => requests_carry model h t'
  end.

(** ** The agent loop *)

Section AgentLoop.

(** [json.loads] and [json.dumps]; [inl e] where they raise. *)
Variable json_loads : string -> exn + json.
Variable json_dumps : json -> exn + string.

(** The tool provider behind [self.session]: a state that tools may
    change, and [call_tool], which returns a value or raises. *)
Variable Provider : Type.
Variable call_tool :
  Provider -> string -> list (string * json) -> Provider * (exn + ToolOutput).

(** [tool_output.data if isinstance(tool_output, Message) else tool_output] *)
Definition tool_result_content (tool_output : ToolOutput) : json :=
  match tool_output with
  | Wrapped data => data
  | Bare v => v
  end.

(** The body of [for tool_call in response_message.tool_calls] (lines
    101-127): the entry it appends to [tool_calls_to_append], or the
    exception it raises, with the provider's state and its events. *)
Definition execute_tool_call (a : Agent) (tool_call : ToolCall) (p : Provider)
  : (exn + ToolResultEntry) * Provider * list Event :=
  let function_name := tc_name tool_call in
  match json_loads (tc_arguments tool_call) with
  | inl e => (inl e, p, [])
  | inr function_args =>
      let t1 := [EvPrint (PCalling function_name function_args)] in
      if negb (session a)
      then (inl (AttributeError "call_tool"), p, t1)
      else
        match function_args with
        | JDict kwargs =>
            let '(p1, out) := call_tool p function_name kwargs in
            let t2 := t1 ++ [EvCallTool function_name kwargs] in
            match out with
            | inl e => (inl e, p1, t2)
            | inr tool_output =>
                let result := tool_result_content tool_output in
                let t3 := t2 ++ [EvPrint (PToolResult result)] in
                match json_dumps result with
                | inl e => (inl e, p1, t3)
                | inr text =>
                    let entry :=
                      {| tool_call_id := tc_id tool_call;
                         function_name := function_name;
                         content := text |} in
                    (inr entry, p1, t3 ++ [EvPending entry])
                end
            end
        | _ => (inl (TypeError "argument after ** must be a mapping"), p, t1)
        end
  end.

(** The [for] loop of lines 100-127, from the point where
    [tool_calls_to_append] holds the entries of the calls already made. *)
Fixpoint execute_tool_calls (a : Agent) (calls : list ToolCall)
    (tool_calls_to_append : list ToolResultEntry) (p : Provider)
  : (exn + list ToolResultEntry) * Provider * list Event :=
  match calls with
  | [] => (inr tool_calls_to_append, p, [])
  | tool_call :: rest =>
      match execute_tool_call a tool_call p with
      | (inl e, p1, t1) => (inl e, p1, t1)
      | (inr entry, p1, t1) =>
          let '(res, p2, t2) :=
            execute_tool_calls a rest (tool_calls_to_append ++ [entry]) p1 in
          (res, p2, t1 ++ t2)
      end
  end.

(** Lines 93-147: what one iteration does with the response it got. *)
Definition handle_response (response_message : ResponseMessage) (a : Agent)
    (p : Provider) : Next * Agent * Provider * list Event :=
  if has_tool_calls response_message then
    let t1 := [EvPrint PToolCallRequested] in
    match execute_tool_calls a (requested_calls response_message) [] p with
    | (inl e, p1, t2) => (Stop (Raised e), a, p1, t1 ++ t2)
    | (inr tool_calls_to_append, p1, t2) =>
        let m1 := MResponse response_message in
        let m2 := MToolResults tool_calls_to_append in
        (Continue, history_append (history_append a m1) m2, p1,
         t1 ++ t2 ++ [EvHistoryAppend m1; EvHistoryAppend m2])
    end
  else
    let final_answer := rm_content response_message in
    let m := MResponse response_message in
    (Stop Finished, history_append a m, p,
     [EvPrint (PFinalAnswer final_answer); EvHistoryAppend m]).

(** What a run of a loop leaves behind. *)
Record LoopResult : Type := mkLoopResult {
  lr_end : LoopEnd;
  lr_agent : Agent;
  lr_provider : Provider;
  lr_script : list LLMOutcome;     (* outcomes not yet consumed *)
  lr_trace : list Event
}.

Definition lr_prepend (t : list Event) (r : LoopResult) : LoopResult :=
  {| lr_end := lr_end r; lr_agent := lr_agent r;
     lr_provider := lr_provider r; lr_script := lr_script r;
     lr_trace := t ++ lr_trace r |}.

(** The [while True] loop of [process_user_query] (lines 82-147), inside
    its [try].  Each iteration takes the next outcome of the script for
    its request. *)
Fixpoint query_loop (script : list LLMOutcome) (a : Agent) (p : Provider)
  : LoopResult :=
  match client a, tool_definitions a with
  | true, Some tools =>
      let t0 := [EvLLMRequest (model_name a) (history a) tools] in
      match script with
      | [] => mkLoopResult Awaiting a p [] t0
      | LLMRaise e :: script' => mkLoopResult (Raised e) a p script' t0
      | LLMReply response_message :: script' =>
          match handle_response response_message a p with
          | (Continue, a1, p1, t1) =>
              lr_prepend (t0 ++ t1) (query_loop script' a1 p1)
          | (Stop e, a1, p1, t1) => mkLoopResult e a1 p1 script' (t0 ++ t1)
          end
      end
  | false, _ => mkLoopResult (Raised (AttributeError "chat")) a p script []
  | true, None =>
      mkLoopResult (Raised (AttributeError "tool_definitions")) a p script []
  end.

(** What a call of [process_user_query] leaves behind. *)
Record QueryResult : Type := mkQueryResult {
  qr_return : Completion;
  qr_agent : Agent;
  qr_provider : Provider;
  qr_script : list LLMOutcome;
  qr_trace : list Event
}.

(** [process_user_query(query)] (lines 75-152). *)
Definition process_user_query (query : string) (a : Agent) (p : Provider)
    (script : list LLMOutcome) : QueryResult :=
  let user := MDict "user" query in
  let r := query_loop script (history_append a user) p in
  let t := EvHistoryAppend user :: lr_trace r in
  match lr_end r with
  | Finished =>
      mkQueryResult (Returned PyNone) (lr_agent r) (lr_provider r)
        (lr_script r) t
  | Awaiting =>
      mkQueryResult Blocked (lr_agent r) (lr_provider r) (lr_script r) t
  | Raised e =>
      let t1 := t ++ [EvPrint (PError e)] in
      match list_pop (history (lr_agent r)) with
      | Some (h, m) =>
          mkQueryResult (Returned PyNone) (set_history (lr_agent r) h)
            (lr_provider r) (lr_script r) (t1 ++ [EvHistoryPop m])
      | None =>
          mkQueryResult (Escaped (IndexError "pop from empty list"))
            (lr_agent r) (lr_provider r) (lr_script r) t1
      end
  end.

(** *** Vocabulary of the properties *)

(** The events of one successful pass through the body of the [for]
    loop. *)
Definition call_block (tc : ToolCall) (kwargs : list (string * json))
    (result : json) (entry : ToolResultEntry) : list Event :=
  [EvPrint (PCalling (tc_name tc) (JDict kwargs));
   EvCallTool (tc_name tc) kwargs;
   EvPrint (PToolResult result);
   EvPending entry].

(** [for_loop_trace calls entries t]: [t] is one [call_block] per call,
    in the order of [calls], the k-th block ending with the k-th entry
    being put on [tool_calls_to_append]. *)
Inductive for_loop_trace
  : list ToolCall -> list ToolResultEntry -> list Event -> Prop :=
| flt_nil : for_loop_trace [] [] []
| flt_cons tc kwargs result entry calls entries t :
    json_loads (tc_arguments tc) = inr (JDict kwargs) ->
    json_dumps result = inr (content entry) ->
    tool_call_id entry = tc_id tc ->
    function_name entry = tc_name tc ->
    for_loop_trace calls entries t ->
    for_loop_trace (tc :: calls) (entry :: entries)
      (call_block tc kwargs result entry ++ t).

(** [answers tc entry]: [entry] is what the body of the [for] loop makes
    of [tc] in some state of the provider: it carries the request's
    identifier and tool name, and its content is the serialized, unwrapped
    value that the provider returned for the parsed arguments. *)
Definition answers (tc : ToolCall) (entry : ToolResultEntry) : Prop :=
  tool_call_id entry = tc_id tc /\
  function_name entry = tc_name tc /\
  exists kwargs p p1 tool_output,
    json_loads (tc_arguments tc) = inr (JDict kwargs) /\
    call_tool p (tc_name tc) kwargs = (p1, inr tool_output) /\
    json_dumps (tool_result_content tool_output) = inr (content entry).

(** [serialized tool_output text]: [text] is the JSON text of what the
    provider returned, which is the payload of the MCP [Message] when the
    provider wrapped its result in one, and the returned value itself
    otherwise.  Stated on the provider's value, by cases, to be compared
    with what the loop computes. *)
Inductive serialized : ToolOutput -> string -> Prop :=
| serialized_payload data text :
    json_dumps data = inr text -> serialized (Wrapped data) text
| serialized_value v text :
    json_dumps v = inr text -> serialized (Bare v) text.

(** [results_of p calls entries p1]: [entries] are the results of [calls],
    one per call and in their order, when the calls are made one after the
    other on a provider that starts in the state [p] and ends in [p1]: the
    k-th entry carries the identifier and the tool name of the k-th call,
    and its content is the JSON text of what the provider returned for the
    parsed arguments of that call, in the state the calls before it had
    left. *)
Inductive results_of
  : Provider -> list ToolCall -> list ToolResultEntry -> Provider -> Prop :=
| results_nil p : results_of p [] [] p
| results_cons p tc kwargs p1 tool_output entry calls entries p2 :
    json_loads (tc_arguments tc) = inr (JDict kwargs) ->
    call_tool p (tc_name tc) kwargs = (p1, inr tool_output) ->
    serialized tool_output (content entry) ->
    tool_call_id entry = tc_id tc ->
    function_name entry = tc_name tc ->
    results_of p1 calls entries p2 ->
    results_of p (tc :: calls) (entry :: entries) p2.

(** The agent and the provider after a run of tool-call iterations that
    all complete; [None] when one of them raises or is no tool-call
    iteration. *)
Fixpoint run_turns (turns : list ResponseMessage) (a : Agent) (p : Provider)
  : option (Agent * Provider) :=
  match turns with
  | [] => Some (a, p)
  | m :: turns' =>
      match handle_response m a p with
      | (Continue, a1, p1, _) => run_turns turns' a1 p1
      | _ => None
      end
  end.

(** The state in which the tool invocations [calls], made one after the
    other, leave the provider. *)
Fixpoint provider_after (p : Provider)
    (calls : list (string * list (string * json))) : Provider :=
  match calls with
  | [] => p
  | (name, kwargs) :: rest =>
      provider_after (fst (call_tool p name kwargs)) rest
  end.

(** ** Start-up and the console driver *)

Definition system_prompt : string :=
  ("You are an expert AI agent designed to answer user questions about Elastic Integration "
   ++ "documentation. Use the provided tools exclusively to fetch information. "
   ++ "Do not guess. Only use the tools when necessary. If a tool call is needed, "
   ++ "only output the tool call and do not add any conversational text.")%string.

(** [initialize()] (lines 38-73): the client of the endpoint is built,
    then the server parameters, the provider is connected, its tools are
    listed, the system message is appended. *)
Definition initialize (a : Agent) (up : StartUp)
  : LoopEnd * Agent * list Event :=
  let with_client :=
    {| server_command := server_command a; server_name := server_name a;
       model_name := model_name a; client := true; session := session a;
       history := history a; tool_definitions := tool_definitions a |} in
  let with_session :=
    {| server_command := server_command a; server_name := server_name a;
       model_name := model_name a; client := true; session := true;
       history := history a; tool_definitions := tool_definitions a |} in
  let t0 := [EvPrint PInitializing] in
  let t1 := t0 ++ [EvConnect (server_command a) (server_name a)] in
  let t2 := t1 ++ [EvPrint (PConnected (server_name a)); EvListTools] in
  match up with
  | ClientFails e => (Raised e, a, t0)
  | ParametersFail e => (Raised e, with_client, t0)
  | ConnectFails e => (Raised e, with_client, t1)
  | ListingFails e => (Raised e, with_session, t2)
  | Serves tools =>
      let defs := map json_schema tools in
      let sys := MDict "system" system_prompt in
      let a2 :=
        {| server_command := server_command a; server_name := server_name a;
           model_name := model_name a; client := true; session := true;
           history := history a ++ [sys]; tool_definitions := Some defs |} in
      (Finished, a2,
       t2 ++ [EvPrint (PFound (List.length defs)); EvHistoryAppend sys;
              EvPrint PReady])
  end.

(** The [while True] loop of [run_interactive_session] (lines 158-165).
    [inputs] are the lines that [input] returns, one per call; at the end
    of the input [input] raises [EOFError].  (An interrupt at the prompt is
    no [Exception] and has no outcome here.) *)
Fixpoint input_loop (inputs : list string) (a : Agent) (p : Provider)
    (script : list LLMOutcome) : LoopResult :=
  match inputs with
  | [] => mkLoopResult (Raised EOFError) a p script []
  | user_input :: inputs' =>
      let t0 := [EvInput user_input] in
      if PyStr.mem (PyStr.lower user_input) ["exit"; "quit"] then
        mkLoopResult Finished a p script (t0 ++ [EvPrint PExiting])
      else if PyStr.truthy (PyStr.strip user_input) then
        let r := process_user_query (PyStr.strip user_input) a p script in
        match qr_return r with
        | Returned _ =>
            lr_prepend (t0 ++ qr_trace r)
              (input_loop inputs' (qr_agent r) (qr_provider r) (qr_script r))
        | Escaped e =>
            mkLoopResult (Raised e) (qr_agent r) (qr_provider r)
              (qr_script r) (t0 ++ qr_trace r)
        | Blocked =>
            mkLoopResult Awaiting (qr_agent r) (qr_provider r)
              (qr_script r) (t0 ++ qr_trace r)
        end
      else
        lr_prepend t0 (input_loop inputs' a p script)
  end.

(** [run_interactive_session()] (lines 154-169): every exception ends in
    the handler of line 166, and [finally] closes the exit stack. *)
Definition run_interactive_session (a : Agent) (up : StartUp)
    (inputs : list string) (p : Provider) (script : list LLMOutcome)
  : LoopResult :=
  match initialize a up with
  | (Finished, a1, t1) =>
      let r := input_loop inputs a1 p script in
      match lr_end r with
      | Finished =>
          mkLoopResult Finished (lr_agent r) (lr_provider r) (lr_script r)
            (t1 ++ lr_trace r ++ [EvClose])
      | Raised e =>
          mkLoopResult Finished (lr_agent r) (lr_provider r) (lr_script r)
            (t1 ++ lr_trace r ++ [EvPrint (PCritical e); EvClose])
      | Awaiting => lr_prepend t1 r
      end
  | (Raised e, a1, t1) =>
      mkLoopResult Finished a1 p script
        (t1 ++ [EvPrint (PCritical e); EvClose])
  | (Awaiting, a1, t1) => mkLoopResult Awaiting a1 p script t1
  end.

End AgentLoop.

Arguments mkLoopResult {Provider}.
Arguments lr_end {Provider}.
Arguments lr_agent {Provider}.
Arguments lr_provider {Provider}.
Arguments lr_script {Provider}.
Arguments lr_trace {Provider}.
Arguments lr_prepend {Provider}.
Arguments mkQueryResult {Provider}.
Arguments qr_return {Provider}.
Arguments qr_agent {Provider}.
Arguments qr_provider {Provider}.
Arguments qr_script {Provider}.
Arguments qr_trace {Provider}.

(** ** A test double for the collaborators

    The scenarios of the specification, run on the definitions above.  The
    double's [json] functions agree with Python's on the texts and values of
    the scenarios; the provider counts the calls it has served. *)

Module Demo.

Definition dq : string := String "034"%char EmptyString.

(** [{"query": "X"}] *)
Definition args_text : string :=
  ("{" ++ dq ++ "query" ++ dq ++ ": " ++ dq ++ "X" ++ dq ++ "}")%string.

(** [{"query": "Y"}] *)
Definition args_text2 : string :=
  ("{" ++ dq ++ "query" ++ dq ++ ": " ++ dq ++ "Y" ++ dq ++ "}")%string.

(** [{"query": ] is not JSON. *)
Definition malformed_text : string :=
  ("{" ++ dq ++ "query" ++ dq ++ ": ")%string.

(** [{"result": "doc text"}] *)
Definition result_text : string :=
  ("{" ++ dq ++ "result" ++ dq ++ ": " ++ dq ++ "doc text" ++ dq ++ "}")%string.

Definition result_value : json := JDict [("result", JStr "doc text")].

Definition json_loads (s : string) : exn + json :=
  if String.eqb s args_text then inr (JDict [("query", JStr "X")])
  else if String.eqb s args_text2 then inr (JDict [("query", JStr "Y")])
  else inl (LibraryError "JSONDecodeError").

Definition json_dumps (v : json) : exn + string :=
  match v with
  | JDict [(k, JStr t)] =>
      inr ("{" ++ dq ++ k ++ dq ++ ": " ++ dq ++ t ++ dq ++ "}")%string
  | _ => inl (TypeError "not JSON serializable")
  end.

(** The provider answers [search_docs] with [{"result": "doc text"}],
    wrapped in an MCP message, and raises on any other tool. *)
Definition call_tool (served : nat) (name : string)
    (kwargs : list (string * json)) : nat * (exn + ToolOutput) :=
  if String.eqb name "search_docs"
  then (S served, inr (Wrapped result_value))
  else (served, inl (LibraryError "unknown tool")).

Definition search_docs : Tool :=
  {| tool_name := "search_docs"; json_schema := JDict [("type", JStr "object")] |}.

Definition fresh : Agent :=
  new_agent ["python"; "elastic_server.py"] "elastic-integration-docs-mcp"
    "gpt-4o".

(** The agent when [initialize] has returned. *)
Definition ready : Agent :=
  snd (fst (initialize fresh (Serves [search_docs]))).

Definition session (inputs : list string) (script : list LLMOutcome) :=
  run_interactive_session json_loads json_dumps nat call_tool fresh
    (Serves [search_docs]) inputs 0 script.

Definition call1 : ToolCall :=
  {| tc_id := "call_1"; tc_name := "search_docs"; tc_arguments := args_text |}.
Definition call2 : ToolCall :=
  {| tc_id := "call_2"; tc_name := "search_docs"; tc_arguments := args_text2 |}.
Definition bad_call : ToolCall :=
  {| tc_id := "call_3"; tc_name := "search_docs";
     tc_arguments := malformed_text |}.

Definition asks (calls : list ToolCall) : ResponseMessage :=
  {| rm_content := None; rm_tool_calls := Some calls |}.
Definition says (text : string) : ResponseMessage :=
  {| rm_content := Some text; rm_tool_calls := None |}.

Definition query (q : string) (a : Agent) (script : list LLMOutcome) :=
  process_user_query json_loads json_dumps nat call_tool q a 0 script.

Definition handle (m : ResponseMessage) (a : Agent) (served : nat) :=
  handle_response json_loads json_dumps nat call_tool m a served.

Definition loop (script : list LLMOutcome) (a : Agent) :=
  query_loop json_loads json_dumps nat call_tool script a 0.

Definition console (inputs : list string) (script : list LLMOutcome) :=
  input_loop json_loads json_dumps nat call_tool inputs ready 0 script.

Definition catalog : list json := map json_schema [search_docs].

Definition rate_limit : exn := LibraryError "rate limit".

(** A response with two tool-call requests, and the iteration on it. *)
Definition two_calls : ResponseMessage := asks [call1; call2].
Definition turn := handle two_calls ready 0.
Definition after_turn : Agent := snd (fst (fst turn)).

(** The scenario of the specification: one tool call, then the answer. *)
Definition question : string := "What is integration X?".
Definition one_call : ResponseMessage := asks [call1].
Definition answer : ResponseMessage := says "X is ...".
Definition asked : Agent := history_append ready (MDict "user" question).
Definition served_once : Agent := snd (fst (fst (handle one_call asked 0))).

Definition run_one_call : option (Agent * nat) :=
  run_turns json_loads json_dumps nat call_tool [one_call] asked 0.

(** A query whose second request to the endpoint fails. *)
Definition failing_script : list LLMOutcome :=
  [LLMReply one_call; LLMRaise rate_limit].

(** A query whose second response asks for a call with malformed
    arguments. *)
Definition malformed_script : list LLMOutcome :=
  [LLMReply one_call; LLMReply (asks [bad_call])].

Definition entry1 : ToolResultEntry :=
  {| tool_call_id := "call_1"; function_name := "search_docs";
     content := result_text |}.

(** A response whose second call has malformed arguments. *)
Definition three_calls : ResponseMessage := asks [call1; bad_call; call2].

(** The [for] loop on the first call, and its body on the second. *)
Definition first_served :=
  execute_tool_calls json_loads json_dumps nat call_tool ready [call1] [] 0.
Definition bad_outcome :=
  execute_tool_call json_loads json_dumps nat call_tool ready bad_call 1.

(** A [json.loads] that also knows the empty list, and a call whose
    arguments are that text. *)
Definition json_loads_any (s : string) : exn + json :=
  if String.eqb s "[]" then inr (JList []) else json_loads s.
Definition list_call : ToolCall :=
  {| tc_id := "call_4"; tc_name := "search_docs"; tc_arguments := "[]" |}.
Definition first_served_any :=
  execute_tool_calls json_loads_any json_dumps nat call_tool ready [call1] [] 0.

Definition timed_out : exn := LibraryError "timed out".

(** The lines of a console session. *)
Definition lines : list string :=
  [" exit "; "  "; "What is X?"; "EXIT"; "never read"].

(** A provider whose answers depend on its state: whatever the tool, it
    returns the number of the calls it served before, as a ticket, not
    wrapped in a message. *)
Definition ticket (n : nat) : json :=
  JDict [("ticket",
          JStr match n with 0 => "first" | 1 => "second" | _ => "later" end)].

Definition ticket_office (served : nat) (name : string)
    (kwargs : list (string * json)) : nat * (exn + ToolOutput) :=
  (S served, inr (Bare (ticket served))).

(** [{"ticket": "first"}] and so on. *)
Definition ticket_text (n : nat) : string :=
  ("{" ++ dq ++ "ticket" ++ dq ++ ": " ++ dq
   ++ match n with 0 => "first" | 1 => "second" | _ => "later" end
   ++ dq ++ "}")%string.

(** A response that asks twice for the same call. *)
Definition draw : ToolCall :=
  {| tc_id := "call_7"; tc_name := "draw"; tc_arguments := args_text |}.
Definition two_draws : ResponseMessage := asks [draw; draw].
Definition drawn :=
  handle_response json_loads json_dumps nat ticket_office two_draws ready 0.
Definition after_draws : Agent := snd (fst (fst drawn)).
Definition drawn_entry (n : nat) : ToolResultEntry :=
  {| tool_call_id := "call_7"; function_name := "draw";
     content := ticket_text n |}.

End Demo.

(** * Properties *)

(** ** Lists *)

Lemma list_pop_app {A : Type} (l : list A) (x : A) :
  list_pop (l ++ [x]) = Some (l, x).
Proof.
  induction l as [|y l IH]; simpl; [reflexivity|].
  now rewrite IH.
Qed.

Lemma list_pop_some {A : Type} (l h : list A) (m : A) :
  list_pop l = Some (h, m) -> l = h ++ [m].
Proof.
  revert h; induction l as [|y l IH]; simpl; intros h H; [discriminate|].
  destruct (list_pop l) as [[r z]|] eqn:E.
  - inversion H; subst. simpl. f_equal. now apply IH.
  - inversion H; subst. destruct l as [|w l]; [reflexivity|].
    simpl in E. destruct (list_pop l) as [[? ?]|]; discriminate.
Qed.

Lemma nil_or_last {A : Type} (l : list A) :
  l = [] \/ exists l' x, l = l' ++ [x].
Proof.
  induction l as [|x l _] using rev_ind; [now left|right; eauto].
Qed.

Lemma appended_app (h l : list Message) : appended h (h ++ l) = l.
Proof.
  unfold appended. induction h as [|x h IH]; simpl; [reflexivity|exact IH].
Qed.

Lemma invocations_app (t1 t2 : list Event) :
  invocations (t1 ++ t2) = invocations t1 ++ invocations t2.
Proof.
  induction t1 as [|ev t1 IH]; simpl; [reflexivity|].
  destruct ev; simpl; rewrite ?IH; reflexivity.
Qed.

Lemma catalogs_sent_app (t1 t2 : list Event) :
  catalogs_sent (t1 ++ t2) = catalogs_sent t1 ++ catalogs_sent t2.
Proof.
  induction t1 as [|ev t1 IH]; simpl; [reflexivity|].
  destruct ev; simpl; rewrite ?IH; reflexivity.
Qed.

(** ** Python strings *)

Module PyStrFacts.
Import PyStr.

Lemma isspace_lower_char (c : ascii) : isspace (lower_char c) = isspace c.
Proof.
  destruct c as [[] [] [] [] [] [] [] []]; reflexivity.
Qed.

Lemma blank_lower (s : string) : blank (lower s) = blank s.
Proof.
  induction s as [|c s IH]; simpl; [reflexivity|].
  now rewrite isspace_lower_char, IH.
Qed.

Lemma length_lower (s : string) : String.length (lower s) = String.length s.
Proof. induction s as [|c s IH]; simpl; congruence. Qed.

Lemma length_append (s1 s2 : string) :
  String.length (s1 ++ s2)%string = String.length s1 + String.length s2.
Proof. induction s1 as [|c s1 IH]; simpl; congruence. Qed.

Lemma lower_append (s1 s2 : string) :
  lower (s1 ++ s2)%string = (lower s1 ++ lower s2)%string.
Proof. induction s1 as [|c s1 IH]; simpl; congruence. Qed.

Lemma mem_exit_quit (x : string) :
  mem x ["exit"; "quit"] = true <-> x = "exit" \/ x = "quit".
Proof.
  unfold mem. simpl. rewrite !orb_true_iff, !String.eqb_eq.
  intuition discriminate.
Qed.

Lemma blank_lstrip (s : string) : blank (lstrip s) = blank s.
Proof.
  induction s as [|c s IH]; simpl; [reflexivity|].
  destruct (isspace c) eqn:E; simpl; [exact IH|now rewrite E].
Qed.

Lemma rstrip_empty (s : string) : rstrip s = EmptyString <-> blank s = true.
Proof.
  induction s as [|c s IH]; simpl; [tauto|].
  destruct (rstrip s) as [|c' r'] eqn:E.
  - destruct (isspace c); simpl.
    + tauto.
    + split; discriminate.
  - rewrite andb_true_iff. split; [discriminate|].
    intros [_ Hb]. apply IH in Hb. discriminate.
Qed.

(** A line is blank exactly when nothing remains of it once stripped. *)
Lemma truthy_strip (s : string) : truthy (strip s) = negb (blank s).
Proof.
  unfold strip. rewrite <- (blank_lstrip s).
  destruct (rstrip (lstrip s)) as [|c r] eqn:E; simpl.
  - apply rstrip_empty in E. now rewrite E.
  - destruct (blank (lstrip s)) eqn:B; [|reflexivity].
    apply rstrip_empty in B. congruence.
Qed.

Lemma truthy_nonempty (s : string) : truthy s = true <-> s <> EmptyString.
Proof. destruct s; simpl; split; congruence. Qed.

Lemma lstrip_blank_prefix (ws s : string) :
  blank ws = true -> lstrip (ws ++ s)%string = lstrip s.
Proof.
  induction ws as [|c ws IH]; simpl; [reflexivity|].
  rewrite andb_true_iff. intros [-> Hb]. now apply IH.
Qed.

Lemma rstrip_blank_suffix (s ws : string) :
  blank ws = true -> rstrip (s ++ ws)%string = rstrip s.
Proof.
  intros Hb. induction s as [|c s IH]; simpl.
  - now apply rstrip_empty.
  - now rewrite IH.
Qed.

(** The strings that [lower] sends to "exit" or "quit" have four
    characters, none of them white space. *)
Lemma exit_word (w : string) :
  lower w = "exit" \/ lower w = "quit" ->
  exists c1 c2 c3 c4,
    w = String c1 (String c2 (String c3 (String c4 EmptyString))) /\
    isspace c1 = false /\ isspace c4 = false.
Proof.
  intros H.
  destruct w as [|c1 [|c2 [|c3 [|c4 [|c5 w]]]]]; simpl in H;
    try (destruct H; discriminate).
  exists c1, c2, c3, c4. split; [reflexivity|].
  rewrite <- (isspace_lower_char c1), <- (isspace_lower_char c4).
  destruct H as [H|H]; inversion H as [[E1 E2 E3 E4]];
    rewrite E1, E4; split; reflexivity.
Qed.

Lemma strip_padded (ws1 w ws2 : string) :
  blank ws1 = true ->
  blank ws2 = true ->
  lower w = "exit" \/ lower w = "quit" ->
  strip (ws1 ++ w ++ ws2)%string = w.
Proof.
  intros H1 H2 Hw.
  destruct (exit_word w Hw) as (c1 & c2 & c3 & c4 & -> & Hc1 & Hc4).
  unfold strip. rewrite lstrip_blank_prefix by assumption.
  simpl. rewrite Hc1.
  change (String c1 (String c2 (String c3 (String c4 ws2))))
    with (String c1 (String c2 (String c3 (String c4 EmptyString))) ++ ws2)%string.
  rewrite rstrip_blank_suffix by assumption.
  simpl. now rewrite Hc4.
Qed.

Lemma lower_padded_not_exit (ws1 w ws2 : string) :
  ws1 <> EmptyString \/ ws2 <> EmptyString ->
  lower w = "exit" \/ lower w = "quit" ->
  mem (lower (ws1 ++ w ++ ws2)%string) ["exit"; "quit"] = false.
Proof.
  intros Hpad Hw.
  destruct (mem _ _) eqn:E; [|reflexivity].
  apply mem_exit_quit in E.
  assert (Hlen : String.length (lower (ws1 ++ w ++ ws2)%string) = 4)
    by (destruct E as [-> | ->]; reflexivity).
  assert (Hw4 : String.length w = 4)
    by (rewrite <- length_lower; destruct Hw as [-> | ->]; reflexivity).
  rewrite length_lower, !length_append, Hw4 in Hlen.
  destruct Hpad as [Hp|Hp]; [destruct ws1|destruct ws2];
    simpl in Hlen; try congruence; lia.
Qed.

End PyStrFacts.

(** ** The tool-call iteration *)

Section LoopFacts.

Variable json_loads : string -> exn + json.
Variable json_dumps : json -> exn + string.
Variable Provider : Type.
Variable call_tool :
  Provider -> string -> list (string * json) -> Provider * (exn + ToolOutput).

Local Abbreviation execute_tool_call :=
  (execute_tool_call json_loads json_dumps Provider call_tool).
Local Abbreviation execute_tool_calls :=
  (execute_tool_calls json_loads json_dumps Provider call_tool).
Local Abbreviation handle_response :=
  (handle_response json_loads json_dumps Provider call_tool).
Local Abbreviation query_loop :=
  (query_loop json_loads json_dumps Provider call_tool).
Local Abbreviation process_user_query :=
  (process_user_query json_loads json_dumps Provider call_tool).
Local Abbreviation run_turns :=
  (run_turns json_loads json_dumps Provider call_tool).
Local Abbreviation input_loop :=
  (input_loop json_loads json_dumps Provider call_tool).
Local Abbreviation run_interactive_session :=
  (run_interactive_session json_loads json_dumps Provider call_tool).
Local Abbreviation answers := (answers json_loads json_dumps Provider call_tool).
Local Abbreviation for_loop_trace := (for_loop_trace json_loads json_dumps).
Local Abbreviation serialized := (serialized json_dumps).
Local Abbreviation results_of :=
  (results_of json_loads json_dumps Provider call_tool).

(** A pass through the body of the [for] loop that raises nothing: the
    arguments were an object, the provider returned, the value was
    serialized. *)
Lemma execute_tool_call_ok a tc p entry p1 t :
  execute_tool_call a tc p = (inr entry, p1, t) ->
  exists kwargs tool_output,
    json_loads (tc_arguments tc) = inr (JDict kwargs) /\
    call_tool p (tc_name tc) kwargs = (p1, inr tool_output) /\
    json_dumps (tool_result_content tool_output) = inr (content entry) /\
    tool_call_id entry = tc_id tc /\
    function_name entry = tc_name tc /\
    t = call_block tc kwargs (tool_result_content tool_output) entry.
Proof.
  unfold execute_tool_call.
  destruct (json_loads (tc_arguments tc)) as [e|args] eqn:El;
    [discriminate|].
  destruct (session a); simpl; [|discriminate].
  destruct args as [| | | | |kwargs]; try discriminate.
  destruct (call_tool p (tc_name tc) kwargs) as [p' [e|out]] eqn:Ec;
    [discriminate|].
  destruct (json_dumps (tool_result_content out)) as [e|text] eqn:Ed;
    [discriminate|].
  intros H; inversion H; subst; clear H.
  exists kwargs, out. simpl. repeat split; auto.
Qed.

Lemma execute_tool_calls_ok a calls :
  forall acc p res p1 t,
    execute_tool_calls a calls acc p = (inr res, p1, t) ->
    exists entries,
      res = acc ++ entries /\
      Forall2 answers calls entries /\
      for_loop_trace calls entries t.
Proof.
  induction calls as [|tc calls IH]; simpl; intros acc p res p1 t H.
  - inversion H; subst. exists []. rewrite app_nil_r.
    repeat split; constructor.
  - destruct (execute_tool_call a tc p) as [[[e|entry] p'] t1] eqn:E1;
      [discriminate|].
    destruct (execute_tool_calls a calls (acc ++ [entry]) p')
      as [[res' p2] t2] eqn:E2.
    inversion H; subst; clear H.
    apply IH in E2 as (entries & -> & Hans & Htr).
    apply execute_tool_call_ok in E1
      as (kwargs & out & Hl & Hc & Hd & Hid & Hn & ->).
    exists (entry :: entries). rewrite <- app_assoc. simpl.
    repeat split.
    + constructor; [|exact Hans].
      repeat split; auto. exists kwargs, p, p', out. auto.
    + econstructor; eauto.
Qed.

(** What the loop serializes is what the provider returned, out of its
    envelope. *)
Lemma serialized_content tool_output text :
  json_dumps (tool_result_content tool_output) = inr text <->
  serialized tool_output text.
Proof.
  split.
  - destruct tool_output; simpl; intros H; constructor; exact H.
  - intros H; inversion H; subst; simpl; assumption.
Qed.

(** The [for] loop threads the state of the provider through its calls. *)
Lemma execute_tool_calls_results a calls :
  forall acc p res p1 t,
    execute_tool_calls a calls acc p = (inr res, p1, t) ->
    exists entries,
      res = acc ++ entries /\ results_of p calls entries p1.
Proof.
  induction calls as [|tc calls IH]; simpl; intros acc p res p1 t H.
  - inversion H; subst. exists []. rewrite app_nil_r.
    split; [reflexivity|constructor].
  - destruct (execute_tool_call a tc p) as [[[e|entry] p'] t1] eqn:E1;
      [discriminate|].
    destruct (execute_tool_calls a calls (acc ++ [entry]) p')
      as [[res' p2] t2] eqn:E2.
    inversion H; subst; clear H.
    apply IH in E2 as (entries & -> & Hres).
    apply execute_tool_call_ok in E1
      as (kwargs & out & Hl & Hc & Hd & Hid & Hn & _).
    exists (entry :: entries). rewrite <- app_assoc. simpl.
    split; [reflexivity|].
    econstructor; eauto. apply serialized_content. exact Hd.
Qed.

(** The calls and the state of the provider determine the results. *)
Lemma results_of_unique p calls :
  forall entries p1 entries' p1',
    results_of p calls entries p1 ->
    results_of p calls entries' p1' ->
    entries = entries' /\ p1 = p1'.
Proof.
  intros entries p1 entries' p1' H. revert entries' p1'.
  induction H as [p|p tc kwargs p1 out entry calls entries p2
                    Hl Hc Hs Hid Hn _ IH];
    intros entries' p1' H'; inversion H'; subst.
  - split; reflexivity.
  - match goal with
    | H1 : json_loads (tc_arguments tc) = inr (JDict ?k) |- _ =>
        rewrite Hl in H1; inversion H1; subst k
    end.
    match goal with
    | H1 : call_tool p (tc_name tc) kwargs = _ |- _ =>
        rewrite Hc in H1; inversion H1; subst
    end.
    match goal with
    | H1 : results_of _ calls _ _ |- _ =>
        destruct (IH _ _ H1) as (-> & ->)
    end.
    split; [|reflexivity]. f_equal.
    apply serialized_content in Hs.
    match goal with
    | H1 : serialized _ (content ?e') |- _ =>
        apply serialized_content in H1; rewrite Hs in H1;
        destruct entry, e'; simpl in *; inversion H1; congruence
    end.
Qed.

(** The [for] loop never touches the transcript, however it ends. *)
Lemma execute_tool_call_no_append a tc p res p1 t :
  execute_tool_call a tc p = (res, p1, t) ->
  filter is_history_append t = [].
Proof.
  unfold execute_tool_call.
  destruct (json_loads (tc_arguments tc)) as [e|args];
    [intros H; inversion H; reflexivity|].
  destruct (session a); simpl; [|intros H; inversion H; reflexivity].
  destruct args as [| | | | |kwargs];
    try (intros H; inversion H; reflexivity).
  destruct (call_tool p (tc_name tc) kwargs) as [p' [e|out]];
    [intros H; inversion H; reflexivity|].
  destruct (json_dumps (tool_result_content out)) as [e|text];
    intros H; inversion H; reflexivity.
Qed.

Lemma execute_tool_calls_no_append a calls :
  forall acc p res p1 t,
    execute_tool_calls a calls acc p = (res, p1, t) ->
    filter is_history_append t = [].
Proof.
  induction calls as [|tc calls IH]; simpl; intros acc p res p1 t H.
  - inversion H; reflexivity.
  - destruct (execute_tool_call a tc p) as [[[e|entry] p'] t1] eqn:E1.
    + inversion H; subst. eapply execute_tool_call_no_append; eauto.
    + destruct (execute_tool_calls a calls (acc ++ [entry]) p')
        as [[res' p2] t2] eqn:E2.
      inversion H; subst; clear H.
      rewrite filter_app.
      erewrite execute_tool_call_no_append by eauto.
      erewrite IH by eauto. reflexivity.
Qed.

Lemma for_loop_trace_length calls entries t :
  for_loop_trace calls entries t -> List.length entries = List.length calls.
Proof. induction 1; simpl; congruence. Qed.

Lemma for_loop_trace_ids calls entries t :
  for_loop_trace calls entries t ->
  map tool_call_id entries = map tc_id calls.
Proof. induction 1; simpl; congruence. Qed.

Lemma for_loop_trace_invocations calls entries t :
  for_loop_trace calls entries t ->
  Forall2 (fun tc inv =>
             fst inv = tc_name tc /\
             json_loads (tc_arguments tc) = inr (JDict (snd inv)))
          calls (invocations t).
Proof.
  induction 1; simpl; constructor; auto.
Qed.

(** A tool-call iteration that completes. *)
Lemma handle_response_continue m a p a1 p1 t :
  handle_response m a p = (Continue, a1, p1, t) ->
  has_tool_calls m = true /\
  exists entries t_for,
    execute_tool_calls a (requested_calls m) [] p = (inr entries, p1, t_for) /\
    a1 = history_append (history_append a (MResponse m)) (MToolResults entries) /\
    t = EvPrint PToolCallRequested :: t_for
        ++ [EvHistoryAppend (MResponse m);
            EvHistoryAppend (MToolResults entries)].
Proof.
  unfold handle_response.
  destruct (has_tool_calls m); [|discriminate].
  destruct (execute_tool_calls a (requested_calls m) [] p)
    as [[[e|entries] p'] t2] eqn:E; [discriminate|].
  intros H; inversion H; subst; clear H.
  split; [reflexivity|]. exists entries, t2. auto.
Qed.

Lemma transcripts_at_calls_for_loop calls entries t_for :
  for_loop_trace calls entries t_for ->
  forall h t,
    transcripts_at_calls h (t_for ++ t)
    = map (fun _ => h) calls ++ transcripts_at_calls h t.
Proof.
  induction 1 as [|tc kwargs result entry calls entries t0 _ _ _ _ _ IH];
    intros h t; [reflexivity|].
  simpl. now rewrite IH.
Qed.

(** C1 (amended): for a response with N >= 1 tool-call requests whose
    calls all complete, the iteration appends the assistant's request
    message and then exactly ONE tool-role message; that message holds
    exactly N result entries, one per executed call and in the order of
    the requests, each carrying its call's identifier and tool name and,
    as content, the JSON text of what the provider returned for that call
    (the payload, when the result is wrapped), the calls being made one
    after the other from the state the provider was in when the iteration
    started.  The calls and that state determine the entries. *)
Theorem tool_turn_appends_one_results_message m a p a1 p1 t :
  1 <= List.length (requested_calls m) ->
  handle_response m a p = (Continue, a1, p1, t) ->
  exists entries,
    history a1 = history a ++ [MResponse m; MToolResults entries] /\
    count_role "tool" (appended (history a) (history a1)) = 1 /\
    List.length entries = List.length (requested_calls m) /\
    map tool_call_id entries = map tc_id (requested_calls m) /\
    Forall2 answers (requested_calls m) entries /\
    results_of p (requested_calls m) entries p1 /\
    (forall entries' p1',
        results_of p (requested_calls m) entries' p1' ->
        entries' = entries /\ p1' = p1).
Proof.
  intros _ H.
  apply handle_response_continue in H
    as (_ & entries & t_for & Hexec & -> & _).
  pose proof (execute_tool_calls_results _ _ _ _ _ _ _ Hexec)
    as (entries0 & Heq0 & Hres).
  simpl in Heq0; subst entries0.
  apply execute_tool_calls_ok in Hexec as (entries' & Heq & Hans & Htr).
  simpl in Heq; subst entries'.
  exists entries.
  split; [simpl; rewrite <- app_assoc; reflexivity|].
  split; [simpl; rewrite <- app_assoc, appended_app; reflexivity|].
  split; [eapply for_loop_trace_length; eauto|].
  split; [eapply for_loop_trace_ids; eauto|].
  split; [exact Hans|].
  split; [exact Hres|].
  intros entries' p1' H'.
  destruct (results_of_unique _ _ _ _ _ _ H' Hres) as (-> & ->).
  split; reflexivity.
Qed.

(** C3 (amended): in a tool-call iteration that completes, the tools are
    invoked one after the other in the order of the requests, and call
    K+1 starts only when call K has returned and its serialized result has
    been put on the iteration's pending list [tool_calls_to_append]; the
    transcript is not touched while the calls run (every call sees the
    transcript the iteration started with), and the request message and
    the results are appended to it after the last call. *)
Theorem tool_calls_in_order_results_appended_last m a p a1 p1 t :
  handle_response m a p = (Continue, a1, p1, t) ->
  exists entries t_for,
    for_loop_trace (requested_calls m) entries t_for /\
    t = EvPrint PToolCallRequested :: t_for
        ++ [EvHistoryAppend (MResponse m);
            EvHistoryAppend (MToolResults entries)] /\
    filter is_history_append t_for = [] /\
    Forall2 (fun tc inv =>
               fst inv = tc_name tc /\
               json_loads (tc_arguments tc) = inr (JDict (snd inv)))
            (requested_calls m) (invocations t) /\
    transcripts_at_calls (history a) t
    = map (fun _ => history a) (requested_calls m).
Proof.
  intros H.
  apply handle_response_continue in H
    as (_ & entries & t_for & Hexec & -> & ->).
  pose proof (execute_tool_calls_no_append _ _ _ _ _ _ _ Hexec) as Hno.
  apply execute_tool_calls_ok in Hexec as (entries' & Heq & Hans & Htr).
  simpl in Heq; subst entries'.
  exists entries, t_for. repeat split; auto.
  - simpl. rewrite invocations_app. simpl. rewrite app_nil_r.
    eapply for_loop_trace_invocations; eauto.
  - simpl. erewrite transcripts_at_calls_for_loop by eauto.
    simpl. now rewrite app_nil_r.
Qed.

(** ** The loop of a query *)

Lemma same_setup_refl a : same_setup a a.
Proof. repeat split. Qed.

Lemma same_setup_trans a b c :
  same_setup a b -> same_setup b c -> same_setup a c.
Proof.
  unfold same_setup. intros (?&?&?&?&?&?) (?&?&?&?&?&?).
  repeat split; congruence.
Qed.

Lemma same_setup_append a m : same_setup a (history_append a m).
Proof. repeat split. Qed.

(** An iteration changes nothing of the agent but the transcript, and it
    only appends to that. *)
Lemma handle_response_setup m a p nx a1 p1 t :
  handle_response m a p = (nx, a1, p1, t) ->
  same_setup a a1 /\ exists l, history a1 = history a ++ l.
Proof.
  unfold handle_response.
  destruct (has_tool_calls m).
  - destruct (execute_tool_calls a (requested_calls m) [] p)
      as [[[e|entries] p'] t2];
      intros H; inversion H; subst; clear H.
    + split; [apply same_setup_refl|]. exists []. now rewrite app_nil_r.
    + split; [repeat split|].
      exists [MResponse m; MToolResults entries].
      simpl. now rewrite <- app_assoc.
  - intros H; inversion H; subst; clear H.
    split; [repeat split|]. exists [MResponse m]. reflexivity.
Qed.

Lemma handle_response_stop_raised m a p e a1 p1 t :
  handle_response m a p = (Stop (Raised e), a1, p1, t) -> a1 = a.
Proof.
  unfold handle_response.
  destruct (has_tool_calls m).
  - destruct (execute_tool_calls a (requested_calls m) [] p)
      as [[[e'|entries] p'] t2];
      intros H; inversion H; subst; reflexivity.
  - discriminate.
Qed.

Lemma handle_response_final m a p :
  has_tool_calls m = false ->
  handle_response m a p
  = (Stop Finished, history_append a (MResponse m), p,
     [EvPrint (PFinalAnswer (rm_content m));
      EvHistoryAppend (MResponse m)]).
Proof. unfold handle_response. now intros ->. Qed.

Lemma handle_response_tool_turn m a p nx a1 p1 t :
  has_tool_calls m = true ->
  handle_response m a p = (nx, a1, p1, t) ->
  nx = Continue \/ exists e, nx = Stop (Raised e).
Proof.
  unfold handle_response. intros ->.
  destruct (execute_tool_calls a (requested_calls m) [] p)
    as [[[e|entries] p'] t2];
    intros H; inversion H; subst; eauto.
Qed.

Lemma query_loop_setup script :
  forall a p,
    same_setup a (lr_agent (query_loop script a p)) /\
    exists l, history (lr_agent (query_loop script a p)) = history a ++ l.
Proof.
  induction script as [|o script IH]; intros a p; simpl.
  - destruct (client a), (tool_definitions a); simpl;
      (split; [apply same_setup_refl|exists []; now rewrite app_nil_r]).
  - destruct (client a), (tool_definitions a) as [tools|]; simpl;
      try (split; [apply same_setup_refl|exists []; now rewrite app_nil_r]).
    destruct o as [e|m]; simpl;
      try (split; [apply same_setup_refl|exists []; now rewrite app_nil_r]).
    destruct (handle_response m a p) as [[[nx a1] p1] t1] eqn:E.
    apply handle_response_setup in E as (Hs & l & Hl).
    destruct nx as [|e]; simpl.
    + destruct (IH a1 p1) as (Hs' & l' & Hl').
      split; [eapply same_setup_trans; eauto|].
      exists (l ++ l'). rewrite Hl', Hl. now rewrite app_assoc.
    + split; [exact Hs|]. now exists l.
Qed.

(** The iterations of [turns], when they all complete, take the loop from
    [a] to the agent that [run_turns] computes. *)
Lemma query_loop_run_turns tools turns :
  forall a p a1 p1 script,
    client a = true ->
    tool_definitions a = Some tools ->
    run_turns turns a p = Some (a1, p1) ->
    same_setup a a1 /\
    (exists done,
        map fst done = turns /\
        history a1 = history a ++ flat_map turn_messages done) /\
    exists t,
      query_loop (map LLMReply turns ++ script) a p
      = lr_prepend t (query_loop script a1 p1).
Proof.
  induction turns as [|m turns IH]; intros a p a1 p1 script Hc Ht Hrun.
  - simpl in Hrun. inversion Hrun; subst; clear Hrun.
    split; [apply same_setup_refl|]. split.
    + exists []. simpl. now rewrite app_nil_r.
    + exists []. simpl. destruct (query_loop script a1 p1); reflexivity.
  - simpl in Hrun.
    destruct (handle_response m a p) as [[[nx a2] p2] t1] eqn:E.
    destruct nx; [|discriminate].
    pose proof (handle_response_setup _ _ _ _ _ _ _ E) as (Hs & _).
    pose proof (handle_response_continue _ _ _ _ _ _ E)
      as (_ & entries & t_for & _ & Ha2 & _).
    assert (Hc2 : client a2 = true) by (destruct Hs as (?&?&?&?&?&?); congruence).
    assert (Ht2 : tool_definitions a2 = Some tools)
      by (destruct Hs as (?&?&?&?&?&?); congruence).
    destruct (IH a2 p2 a1 p1 script Hc2 Ht2 Hrun)
      as (Hs' & (done & Hd & Hh) & t & Hq).
    split; [eapply same_setup_trans; eauto|]. split.
    + exists ((m, entries) :: done). simpl. split; [now rewrite Hd|].
      rewrite Hh, Ha2. simpl. now rewrite <- !app_assoc.
    + exists (EvLLMRequest (model_name a) (history a) tools :: t1 ++ t).
      simpl. rewrite Hc, Ht, E, Hq.
      unfold lr_prepend; simpl. now rewrite <- app_assoc.
Qed.

Lemma list_pop_nonempty {A : Type} (l : list A) :
  l <> [] -> exists h m, list_pop l = Some (h, m).
Proof.
  destruct l as [|x l]; [congruence|]. intros _. simpl.
  destruct (list_pop l) as [[r y]|]; eauto.
Qed.

(** The handler of line 149 always finds a message to pop, so no
    exception escapes from [process_user_query], and it returns [None]
    whenever the endpoint answered the requests it made. *)
Lemma process_user_query_return q a p script :
  qr_return (process_user_query q a p script)
  = match lr_end (query_loop script (history_append a (MDict "user" q)) p) with
    | Awaiting => Blocked
    | _ => Returned PyNone
    end.
Proof.
  unfold process_user_query.
  destruct (query_loop_setup script (history_append a (MDict "user" q)) p)
    as (_ & l & Hl).
  destruct (lr_end _); try reflexivity.
  destruct (list_pop_nonempty
              (history (lr_agent
                 (query_loop script (history_append a (MDict "user" q)) p))))
    as (h & m & Hp).
  - rewrite Hl. simpl. intros Hnil.
    apply app_eq_nil in Hnil as (Hnil & _).
    apply app_eq_nil in Hnil as (_ & Hnil). discriminate.
  - now rewrite Hp.
Qed.

(** A script whose tool-call responses are followed by a response without
    tool calls never leaves the loop waiting for the endpoint. *)
Lemma query_loop_ends turns final rest :
  Forall (fun m => has_tool_calls m = true) turns ->
  has_tool_calls final = false ->
  forall a p,
    lr_end (query_loop (map LLMReply turns ++ LLMReply final :: rest) a p)
    <> Awaiting.
Proof.
  intros Hturns Hfinal.
  induction Hturns as [|m turns Hm _ IH]; intros a p; simpl.
  - destruct (client a), (tool_definitions a); simpl; try discriminate.
    rewrite handle_response_final by assumption. discriminate.
  - destruct (client a), (tool_definitions a); simpl; try discriminate.
    destruct (handle_response m a p) as [[[nx a1] p1] t1] eqn:E.
    destruct (handle_response_tool_turn _ _ _ _ _ _ _ Hm E) as [->|[e ->]].
    + simpl. apply IH.
    + discriminate.
Qed.

(** C4 (amended): when the endpoint's responses are tool-call responses
    followed by one response without tool calls, [process_user_query]
    terminates, and it returns nothing ([None]) to its caller; when the
    tool-call iterations before it all complete, that last response is
    appended to the transcript as the assistant message holding the final
    answer, and its text is printed for the operator. *)
Theorem final_answer_ends_query q a p tools turns final rest :
  client a = true ->
  tool_definitions a = Some tools ->
  Forall (fun m => has_tool_calls m = true) turns ->
  has_tool_calls final = false ->
  let r :=
    process_user_query q a p (map LLMReply turns ++ LLMReply final :: rest) in
  qr_return r = Returned PyNone /\
  forall a1 p1,
    run_turns turns (history_append a (MDict "user" q)) p = Some (a1, p1) ->
    history (qr_agent r) = history a1 ++ [MResponse final] /\
    role (MResponse final) = "assistant" /\
    (exists done,
        map fst done = turns /\
        history a1 = history a ++ MDict "user" q :: flat_map turn_messages done) /\
    In (EvPrint (PFinalAnswer (rm_content final))) (qr_trace r) /\
    qr_script r = rest /\
    qr_provider r = p1.
Proof.
  intros Hc Ht Hturns Hfinal r. split.
  - unfold r. rewrite process_user_query_return.
    pose proof (query_loop_ends turns final rest Hturns Hfinal
                  (history_append a (MDict "user" q)) p) as Hend.
    destruct (lr_end _); congruence.
  - intros a1 p1 Hrun.
    destruct (query_loop_run_turns tools turns
                (history_append a (MDict "user" q)) p a1 p1
                (LLMReply final :: rest) Hc Ht Hrun)
      as (Hs & (done & Hd & Hh) & t & Hq).
    assert (Hc1 : client a1 = true)
      by (destruct Hs as (?&?&?&?&?&?); simpl in *; congruence).
    assert (Ht1 : tool_definitions a1 = Some tools)
      by (destruct Hs as (?&?&?&?&?&?); simpl in *; congruence).
    assert (Hr : query_loop (LLMReply final :: rest) a1 p1
                 = mkLoopResult Finished (history_append a1 (MResponse final))
                     p1 rest
                     ([EvLLMRequest (model_name a1) (history a1) tools]
                      ++ [EvPrint (PFinalAnswer (rm_content final));
                          EvHistoryAppend (MResponse final)])).
    { simpl. rewrite Hc1, Ht1, handle_response_final by assumption.
      reflexivity. }
    unfold r, process_user_query. rewrite Hq, Hr. simpl.
    repeat split.
    + exists done. split; [exact Hd|].
      rewrite Hh. simpl. now rewrite <- app_assoc.
    + right. apply in_or_app. right. simpl. auto.
Qed.

(** C5 (amended): a query answered by one response with a single
    tool-call request, whose call the provider serves, and then by a
    response without tool calls, makes the transcript grow by exactly four
    messages: the user message, the assistant's tool-call message, one
    tool-role message, and the assistant message of the final answer.  The
    tool-role message has no content of its own: it holds one result
    entry, which carries the identifier and the tool name of the call and
    has as content the JSON text of what the provider returned (the
    payload, when the result is wrapped). *)
Theorem single_tool_call_scenario
    q a p tools tc kwargs tool_output text p1 c final rest :
  client a = true ->
  session a = true ->
  tool_definitions a = Some tools ->
  json_loads (tc_arguments tc) = inr (JDict kwargs) ->
  call_tool p (tc_name tc) kwargs = (p1, inr tool_output) ->
  serialized tool_output text ->
  has_tool_calls final = false ->
  let request := {| rm_content := c; rm_tool_calls := Some [tc] |} in
  let r :=
    process_user_query q a p (LLMReply request :: LLMReply final :: rest) in
  history (qr_agent r)
  = history a
    ++ [MDict "user" q;
        MResponse request;
        MToolResults [{| tool_call_id := tc_id tc;
                         function_name := tc_name tc;
                         content := text |}];
        MResponse final] /\
  List.length (history (qr_agent r)) = List.length (history a) + 4 /\
  map role (appended (history a) (history (qr_agent r)))
  = ["user"; "assistant"; "tool"; "assistant"] /\
  map message_content (appended (history a) (history (qr_agent r)))
  = [Some q; c; None; rm_content final] /\
  qr_provider r = p1 /\
  qr_return r = Returned PyNone.
Proof.
  intros Hc Hs Ht Hl Hcall Hd Hfinal request r.
  apply serialized_content in Hd.
  assert (Hh : history (qr_agent r)
               = history a
                 ++ [MDict "user" q; MResponse request;
                     MToolResults [{| tool_call_id := tc_id tc;
                                      function_name := tc_name tc;
                                      content := text |}];
                     MResponse final] /\
               qr_provider r = p1).
  { set (a0 := history_append a (MDict "user" q)).
    set (entry := {| tool_call_id := tc_id tc; function_name := tc_name tc;
                     content := text |}).
    set (a1 := history_append (history_append a0 (MResponse request))
                 (MToolResults [entry])).
    assert (E : exists t, handle_response request a0 p = (Continue, a1, p1, t)).
    { unfold handle_response, execute_tool_call. simpl.
      unfold execute_tool_call. simpl.
      rewrite Hl, Hs. simpl. rewrite Hcall, Hd. simpl. eauto. }
    destruct E as (t & E).
    assert (Hrun : run_turns [request] a0 p = Some (a1, p1))
      by (simpl; now rewrite E).
    destruct (query_loop_run_turns tools [request] a0 p a1 p1
                (LLMReply final :: rest) Hc Ht Hrun) as (_ & _ & t' & Hq).
    change (map LLMReply [request] ++ LLMReply final :: rest)
      with (LLMReply request :: LLMReply final :: rest) in Hq.
    unfold r, process_user_query. fold a0. rewrite Hq.
    assert (Hr : query_loop (LLMReply final :: rest) a1 p1
                 = mkLoopResult Finished (history_append a1 (MResponse final))
                     p1 rest
                     ([EvLLMRequest (model_name a1) (history a1) tools]
                      ++ [EvPrint (PFinalAnswer (rm_content final));
                          EvHistoryAppend (MResponse final)])).
    { simpl. rewrite Hc, Ht, handle_response_final by assumption.
      reflexivity. }
    rewrite Hr. simpl. split; [now rewrite <- !app_assoc|reflexivity]. }
  destruct Hh as (Hh & Hp).
  split; [exact Hh|].
  split; [rewrite Hh, length_app; reflexivity|].
  split; [rewrite Hh, appended_app; reflexivity|].
  split; [rewrite Hh, appended_app; reflexivity|].
  split; [exact Hp|].
  - unfold r. rewrite process_user_query_return.
    pose proof (query_loop_ends [request] final rest
                  (Forall_cons _ (eq_refl : has_tool_calls request = true)
                     (Forall_nil _))
                  Hfinal (history_append a (MDict "user" q)) p) as Hend.
    change (map LLMReply [request] ++ LLMReply final :: rest)
      with (LLMReply request :: LLMReply final :: rest) in Hend.
    destruct (lr_end _); congruence.
Qed.

(** ** Failures *)

(** A run of the loop that ends in an exception: some tool-call
    iterations completed, then at most one outcome of the script was
    consumed by the iteration that raised; the transcript holds the
    messages of the completed iterations. *)
Lemma query_loop_raised script :
  forall a p e,
    lr_end (query_loop script a p) = Raised e ->
    exists done bad,
      script = map LLMReply (map fst done) ++ bad
               ++ lr_script (query_loop script a p) /\
      List.length bad <= 1 /\
      Forall (fun turn => Forall2 answers (requested_calls (fst turn)) (snd turn))
             done /\
      history (lr_agent (query_loop script a p))
      = history a ++ flat_map turn_messages done.
Proof.
  induction script as [|o script IH]; intros a p e; simpl.
  - destruct (client a), (tool_definitions a); simpl; try discriminate;
      intros _; exists [], []; simpl; rewrite app_nil_r; auto.
  - destruct (client a), (tool_definitions a) as [tools|]; simpl;
      try (intros _; exists [], []; simpl; rewrite app_nil_r; now auto).
    destruct o as [e'|m]; simpl.
    { intros _. exists [], [LLMRaise e']. simpl. rewrite app_nil_r. auto. }
    destruct (handle_response m a p) as [[[nx a1] p1] t1] eqn:E.
    destruct nx as [|[|e'|]]; simpl; try discriminate.
    + intros H. destruct (IH a1 p1 e H) as (done & bad & Hs & Hb & Hans & Hh).
      apply handle_response_continue in E
        as (_ & entries & t_for & Hexec & -> & _).
      apply execute_tool_calls_ok in Hexec as (entries' & Heq & Hex & _).
      simpl in Heq; subst entries'.
      exists ((m, entries) :: done), bad. simpl. repeat split; auto.
      * f_equal. exact Hs.
      * rewrite Hh. simpl. now rewrite <- !app_assoc.
    + intros _. apply handle_response_stop_raised in E as ->.
      exists [], [LLMReply m]. simpl. rewrite app_nil_r. auto.
Qed.

(** C9: when an exception is raised during a query, the handler removes
    exactly one message from the transcript, the last one, whatever its
    role.  When no tool-call iteration had completed, that is the user
    message of the query; when one had, it is the tool-result message of
    the last completed iteration, and the user message of the failed
    query and the other appended messages stay in the transcript. *)
Theorem handler_pops_last_message q a p script e :
  lr_end (query_loop script (history_append a (MDict "user" q)) p) = Raised e ->
  let r := process_user_query q a p script in
  exists done bad popped,
    script = map LLMReply (map fst done) ++ bad ++ qr_script r /\
    List.length bad <= 1 /\
    Forall (fun turn => Forall2 answers (requested_calls (fst turn)) (snd turn))
           done /\
    history a ++ MDict "user" q :: flat_map turn_messages done
    = history (qr_agent r) ++ [popped] /\
    qr_trace r
    = EvHistoryAppend (MDict "user" q)
      :: lr_trace (query_loop script (history_append a (MDict "user" q)) p)
      ++ [EvPrint (PError e); EvHistoryPop popped] /\
    qr_return r = Returned PyNone /\
    (done = [] -> popped = MDict "user" q /\ history (qr_agent r) = history a) /\
    (forall done' m entries,
        done = done' ++ [(m, entries)] ->
        popped = MToolResults entries /\
        history (qr_agent r)
        = history a ++ MDict "user" q :: flat_map turn_messages done'
          ++ [MResponse m]).
Proof.
  intros Hend r.
  destruct (query_loop_raised _ _ _ _ Hend) as (done & bad & Hs & Hb & Hans & Hh).
  simpl in Hh. rewrite <- app_assoc in Hh. simpl in Hh.
  assert (Hsplit : exists h popped,
             history a ++ MDict "user" q :: flat_map turn_messages done
             = h ++ [popped] /\
             (done = [] -> popped = MDict "user" q /\ h = history a) /\
             (forall done' m entries,
                 done = done' ++ [(m, entries)] ->
                 popped = MToolResults entries /\
                 h = history a ++ MDict "user" q
                     :: flat_map turn_messages done' ++ [MResponse m])).
  { destruct (nil_or_last done) as [->|(done' & [m entries] & ->)].
    - exists (history a), (MDict "user" q). simpl.
      split; [reflexivity|split].
      + intros _. split; reflexivity.
      + intros d m0 es H. destruct d; discriminate.
    - exists (history a ++ MDict "user" q
              :: flat_map turn_messages done' ++ [MResponse m]),
             (MToolResults entries).
      split; [|split].
      + rewrite flat_map_app. simpl.
        rewrite <- !app_assoc. simpl. rewrite <- !app_assoc. reflexivity.
      + intros H. destruct done'; discriminate.
      + intros d m' es H. apply app_inj_tail in H as (-> & H).
        inversion H; subst. auto. }
  destruct Hsplit as (h & popped & Hhp & Hnil & Hlast).
  exists done, bad, popped.
  assert (Hpop : list_pop (history (lr_agent
                   (query_loop script (history_append a (MDict "user" q)) p)))
                 = Some (h, popped)).
  { rewrite Hh, Hhp. apply list_pop_app. }
  unfold r, process_user_query. rewrite Hend, Hpop. simpl.
  repeat split; auto.
  - rewrite <- app_assoc. reflexivity.
  - apply Hnil; assumption.
  - apply Hnil; assumption.
  - eapply Hlast; eauto.
  - eapply Hlast; eauto.
Qed.

(** ** The catalog *)

Lemma reuses_catalog_no_fetch defs t :
  Forall (reuses_catalog defs) t -> filter is_list_tools t = [].
Proof.
  induction 1 as [|ev t Hev _ IH]; simpl; [reflexivity|].
  destruct ev; simpl in *; auto. contradiction.
Qed.

Lemma reuses_catalog_sent defs t :
  Forall (reuses_catalog defs) t ->
  Forall (fun tools => defs = Some tools) (catalogs_sent t).
Proof.
  induction 1 as [|ev t Hev _ IH]; simpl; [constructor|].
  destruct ev; simpl in *; auto.
Qed.

Lemma execute_tool_call_catalog defs a tc p :
  Forall (reuses_catalog defs) (snd (execute_tool_call a tc p)).
Proof.
  unfold execute_tool_call.
  destruct (json_loads (tc_arguments tc)) as [e|args]; simpl;
    [constructor|].
  destruct (session a); simpl; [|repeat constructor].
  destruct args as [| | | | |kwargs]; simpl; try (repeat constructor).
  destruct (call_tool p (tc_name tc) kwargs) as [p' [e|out]]; simpl;
    [repeat constructor|].
  destruct (json_dumps (tool_result_content out)); simpl;
    repeat constructor.
Qed.

Lemma execute_tool_calls_catalog defs a calls :
  forall acc p,
    Forall (reuses_catalog defs) (snd (execute_tool_calls a calls acc p)).
Proof.
  induction calls as [|tc calls IH]; intros acc p; simpl; [constructor|].
  pose proof (execute_tool_call_catalog defs a tc p) as H1.
  destruct (execute_tool_call a tc p) as [[[e|entry] p'] t1]; simpl in *;
    [exact H1|].
  specialize (IH (acc ++ [entry]) p').
  destruct (execute_tool_calls a calls (acc ++ [entry]) p')
    as [[res p2] t2]; simpl in *.
  apply Forall_app; auto.
Qed.

Lemma handle_response_catalog defs m a p :
  Forall (reuses_catalog defs) (snd (handle_response m a p)).
Proof.
  unfold handle_response.
  destruct (has_tool_calls m); [|repeat constructor].
  pose proof (execute_tool_calls_catalog defs a (requested_calls m) [] p) as H.
  destruct (execute_tool_calls a (requested_calls m) [] p)
    as [[[e|entries] p'] t2]; simpl in *.
  - constructor; [exact I|exact H].
  - constructor; [exact I|]. apply Forall_app. split; [exact H|].
    repeat constructor.
Qed.

(** Every request of the loop carries the agent's [tool_definitions], and
    the loop fetches nothing from the provider. *)
Lemma query_loop_catalog script :
  forall a p,
    Forall (reuses_catalog (tool_definitions a))
           (lr_trace (query_loop script a p)).
Proof.
  induction script as [|o script IH]; intros a p; simpl.
  - destruct (client a), (tool_definitions a) eqn:Et; simpl;
      repeat constructor.
  - destruct (client a), (tool_definitions a) as [tools|] eqn:Et; simpl;
      try (repeat constructor).
    destruct o as [e|m]; simpl; [repeat constructor|].
    pose proof (handle_response_catalog (Some tools) m a p) as Hh.
    destruct (handle_response m a p) as [[[nx a1] p1] t1] eqn:E.
    simpl in Hh.
    apply handle_response_setup in E as ((_&_&_&_&_&Hd) & _).
    destruct nx as [|e]; simpl.
    + constructor; [reflexivity|]. apply Forall_app. split; [exact Hh|].
      rewrite <- Et, <- Hd. apply IH.
    + constructor; [reflexivity|exact Hh].
Qed.

Lemma process_user_query_catalog q a p script :
  same_setup a (qr_agent (process_user_query q a p script)) /\
  Forall (reuses_catalog (tool_definitions a))
         (qr_trace (process_user_query q a p script)).
Proof.
  pose proof (query_loop_catalog script (history_append a (MDict "user" q)) p)
    as Ht.
  destruct (query_loop_setup script (history_append a (MDict "user" q)) p)
    as (Hs & _).
  simpl in Ht. unfold process_user_query.
  destruct (lr_end _); simpl.
  - split; [exact Hs|]. constructor; [exact I|exact Ht].
  - destruct (list_pop _) as [[h m]|]; simpl.
    + split; [exact Hs|]. constructor; [exact I|].
      apply Forall_app; split; [|repeat constructor].
      apply Forall_app; split; [exact Ht|repeat constructor].
    + split; [exact Hs|]. constructor; [exact I|].
      apply Forall_app; split; [exact Ht|repeat constructor].
  - split; [exact Hs|]. constructor; [exact I|exact Ht].
Qed.

Lemma input_loop_cons line inputs a p script :
  input_loop (line :: inputs) a p script
  = if PyStr.mem (PyStr.lower line) ["exit"; "quit"] then
      mkLoopResult Finished a p script [EvInput line; EvPrint PExiting]
    else if PyStr.truthy (PyStr.strip line) then
      let r := process_user_query (PyStr.strip line) a p script in
      match qr_return r with
      | Returned _ =>
          lr_prepend (EvInput line :: qr_trace r)
            (input_loop inputs (qr_agent r) (qr_provider r) (qr_script r))
      | Escaped e =>
          mkLoopResult (Raised e) (qr_agent r) (qr_provider r) (qr_script r)
            (EvInput line :: qr_trace r)
      | Blocked =>
          mkLoopResult Awaiting (qr_agent r) (qr_provider r) (qr_script r)
            (EvInput line :: qr_trace r)
      end
    else lr_prepend [EvInput line] (input_loop inputs a p script).
Proof. reflexivity. Qed.

Lemma input_loop_catalog inputs :
  forall a p script,
    same_setup a (lr_agent (input_loop inputs a p script)) /\
    Forall (reuses_catalog (tool_definitions a))
           (lr_trace (input_loop inputs a p script)).
Proof.
  induction inputs as [|line inputs IH]; intros a p script.
  - split; [apply same_setup_refl|constructor].
  - rewrite input_loop_cons.
    destruct (PyStr.mem (PyStr.lower line) ["exit"; "quit"]).
    { split; [apply same_setup_refl|repeat constructor]. }
    destruct (PyStr.truthy (PyStr.strip line)); cbv zeta.
    + destruct (process_user_query_catalog (PyStr.strip line) a p script)
        as (Hs & Ht).
      set (r := process_user_query (PyStr.strip line) a p script) in *.
      destruct (qr_return r); simpl;
        try (split; [exact Hs|constructor; [exact I|exact Ht]]).
      destruct (IH (qr_agent r) (qr_provider r) (qr_script r)) as (Hs' & Ht').
      split; [eapply same_setup_trans; eauto|].
      constructor; [exact I|]. apply Forall_app. split; [exact Ht|].
      destruct Hs as (_&_&_&_&_&Hd). now rewrite <- Hd.
    + destruct (IH a p script) as (Hs' & Ht').
      split; [exact Hs'|]. constructor; [exact I|exact Ht'].
Qed.

(** C7: in a session whose connection is established, the provider's
    catalog is fetched exactly once, by [initialize]; the loop of the
    console fetches nothing, and every request that the agent loop sends
    to the endpoint, over all the queries of the session, carries that
    one catalog. *)
Theorem catalog_fetched_once a tools inputs p script :
  exists a0 t_init t_loop,
    initialize a (Serves tools) = (Finished, a0, t_init) /\
    lr_trace (run_interactive_session a (Serves tools) inputs p script)
    = t_init ++ t_loop /\
    filter is_list_tools t_init = [EvListTools] /\
    filter is_list_tools t_loop = [] /\
    tool_definitions a0 = Some (map json_schema tools) /\
    Forall (fun sent => sent = map json_schema tools)
           (catalogs_sent
              (lr_trace (run_interactive_session a (Serves tools) inputs p script))) /\
    tool_definitions
      (lr_agent (run_interactive_session a (Serves tools) inputs p script))
    = Some (map json_schema tools).
Proof.
  unfold run_interactive_session, initialize.
  set (a0 := {| server_command := server_command a;
                server_name := server_name a;
                model_name := model_name a; client := true; session := true;
                history := history a ++ [MDict "system" system_prompt];
                tool_definitions := Some (map json_schema tools) |}).
  destruct (input_loop_catalog inputs a0 p script) as (Hs & Ht).
  simpl in Ht.
  set (r := input_loop inputs a0 p script) in *.
  assert (Hd : tool_definitions (lr_agent r) = Some (map json_schema tools))
    by (destruct Hs as (_&_&_&_&_&Hd); exact Hd).
  assert (Hsent : forall t,
             Forall (reuses_catalog (Some (map json_schema tools))) t ->
             Forall (fun sent => sent = map json_schema tools)
                    (catalogs_sent t)).
  { intros t H. apply reuses_catalog_sent in H.
    eapply Forall_impl; [|exact H]. simpl. intros x Hx. congruence. }
  eexists a0, _. 
  destruct (lr_end r) eqn:Er; simpl.
  - exists (lr_trace r ++ [EvClose]). repeat split; auto.
    + rewrite filter_app. erewrite reuses_catalog_no_fetch by eauto.
      reflexivity.
    + apply (Hsent (lr_trace r ++ [EvClose])).
      apply Forall_app; split; [exact Ht|repeat constructor].
  - exists (lr_trace r ++ [EvPrint (PCritical e); EvClose]).
    repeat split; auto.
    + rewrite filter_app. erewrite reuses_catalog_no_fetch by eauto.
      reflexivity.
    + apply (Hsent (lr_trace r ++ [EvPrint (PCritical e); EvClose])).
      apply Forall_app; split; [exact Ht|repeat constructor].
  - exists (lr_trace r). repeat split; auto.
    eapply reuses_catalog_no_fetch; eauto.
Qed.

(** ** The console *)

Lemma process_user_query_starts q a p script :
  hd_error (qr_trace (process_user_query q a p script))
  = Some (EvHistoryAppend (MDict "user" q)).
Proof.
  unfold process_user_query.
  destruct (lr_end _); try reflexivity.
  destruct (list_pop _) as [[h m]|]; reflexivity.
Qed.

(** A line that is no exit command and is not blank: its stripped text
    is handed to [process_user_query], and the loop goes on to the next
    line unless the endpoint leaves the query waiting. *)
Lemma input_loop_dispatch line rest a p script :
  PyStr.mem (PyStr.lower line) ["exit"; "quit"] = false ->
  PyStr.truthy (PyStr.strip line) = true ->
  let qr := process_user_query (PyStr.strip line) a p script in
  hd_error (qr_trace qr)
  = Some (EvHistoryAppend (MDict "user" (PyStr.strip line))) /\
  (qr_return qr = Returned PyNone \/ qr_return qr = Blocked) /\
  (qr_return qr = Returned PyNone ->
     input_loop (line :: rest) a p script
     = lr_prepend (EvInput line :: qr_trace qr)
         (input_loop rest (qr_agent qr) (qr_provider qr) (qr_script qr))) /\
  (qr_return qr = Blocked ->
     input_loop (line :: rest) a p script
     = mkLoopResult Awaiting (qr_agent qr) (qr_provider qr) (qr_script qr)
         (EvInput line :: qr_trace qr)).
Proof.
  intros Hmem Htruthy qr.
  split; [apply process_user_query_starts|]. split.
  - unfold qr. rewrite process_user_query_return.
    destruct (lr_end _); auto.
  - rewrite input_loop_cons, Hmem, Htruthy. cbv zeta. fold qr.
    split; intros ->; reflexivity.
Qed.

(** C8: in the loop of the console, a line whose lower-cased text is
    "exit" or "quit" ends the loop: nothing is dispatched and no further
    line is read; a blank line is ignored without a word or a change of
    state, and the next line is read; any other line is dispatched, its
    stripped text being the query of [process_user_query], after which the
    next line is read. *)
Theorem console_line_dispatch line rest a p script :
  (PyStr.lower line = "exit" \/ PyStr.lower line = "quit" ->
     input_loop (line :: rest) a p script
     = mkLoopResult Finished a p script [EvInput line; EvPrint PExiting]) /\
  (PyStr.blank line = true ->
     input_loop (line :: rest) a p script
     = lr_prepend [EvInput line] (input_loop rest a p script)) /\
  (PyStr.lower line <> "exit" -> PyStr.lower line <> "quit" ->
   PyStr.blank line = false ->
     let qr := process_user_query (PyStr.strip line) a p script in
     PyStr.strip line <> EmptyString /\
     hd_error (qr_trace qr)
     = Some (EvHistoryAppend (MDict "user" (PyStr.strip line))) /\
     (qr_return qr = Returned PyNone \/ qr_return qr = Blocked) /\
     (qr_return qr = Returned PyNone ->
        input_loop (line :: rest) a p script
        = lr_prepend (EvInput line :: qr_trace qr)
            (input_loop rest (qr_agent qr) (qr_provider qr) (qr_script qr))) /\
     (qr_return qr = Blocked ->
        input_loop (line :: rest) a p script
        = mkLoopResult Awaiting (qr_agent qr) (qr_provider qr) (qr_script qr)
            (EvInput line :: qr_trace qr))).
Proof.
  split; [|split].
  - intros H. apply PyStrFacts.mem_exit_quit in H.
    now rewrite input_loop_cons, H.
  - intros Hb.
    assert (Hmem : PyStr.mem (PyStr.lower line) ["exit"; "quit"] = false).
    { destruct (PyStr.mem _ _) eqn:E; [|reflexivity].
      apply PyStrFacts.mem_exit_quit in E.
      rewrite <- PyStrFacts.blank_lower in Hb.
      destruct E as [E|E]; rewrite E in Hb; discriminate. }
    rewrite input_loop_cons, Hmem, PyStrFacts.truthy_strip, Hb.
    reflexivity.
  - intros He Hq Hb qr.
    assert (Hmem : PyStr.mem (PyStr.lower line) ["exit"; "quit"] = false).
    { destruct (PyStr.mem _ _) eqn:E; [|reflexivity].
      apply PyStrFacts.mem_exit_quit in E. tauto. }
    assert (Htruthy : PyStr.truthy (PyStr.strip line) = true)
      by (now rewrite PyStrFacts.truthy_strip, Hb).
    split; [now apply PyStrFacts.truthy_nonempty|].
    apply input_loop_dispatch; assumption.
Qed.

(** C10: a line made of "exit" or "quit" (in any case) with white space
    before or after it is no exit command, because the comparison is made
    on the lower-cased line as typed; the line is stripped and the bare
    word is dispatched to [process_user_query] as a query, and the loop
    goes on with the next line. *)
Theorem padded_exit_is_dispatched ws1 w ws2 rest a p script :
  PyStr.blank ws1 = true ->
  PyStr.blank ws2 = true ->
  ws1 <> EmptyString \/ ws2 <> EmptyString ->
  PyStr.lower w = "exit" \/ PyStr.lower w = "quit" ->
  let line := (ws1 ++ w ++ ws2)%string in
  let qr := process_user_query w a p script in
  PyStr.mem (PyStr.lower line) ["exit"; "quit"] = false /\
  PyStr.strip line = w /\
  input_loop (line :: rest) a p script
  <> mkLoopResult Finished a p script [EvInput line; EvPrint PExiting] /\
  hd_error (qr_trace qr) = Some (EvHistoryAppend (MDict "user" w)) /\
  (qr_return qr = Returned PyNone \/ qr_return qr = Blocked) /\
  (qr_return qr = Returned PyNone ->
     input_loop (line :: rest) a p script
     = lr_prepend (EvInput line :: qr_trace qr)
         (input_loop rest (qr_agent qr) (qr_provider qr) (qr_script qr))) /\
  (qr_return qr = Blocked ->
     input_loop (line :: rest) a p script
     = mkLoopResult Awaiting (qr_agent qr) (qr_provider qr) (qr_script qr)
         (EvInput line :: qr_trace qr)).
Proof.
  intros H1 H2 Hpad Hw line qr.
  pose proof (PyStrFacts.lower_padded_not_exit ws1 w ws2 Hpad Hw) as Hmem.
  pose proof (PyStrFacts.strip_padded ws1 w ws2 H1 H2 Hw) as Hstrip.
  fold line in Hmem, Hstrip.
  assert (Htruthy : PyStr.truthy (PyStr.strip line) = true).
  { rewrite Hstrip.
    destruct (PyStrFacts.exit_word w Hw) as (c1 & c2 & c3 & c4 & -> & _).
    reflexivity. }
  pose proof (input_loop_dispatch line rest a p script Hmem Htruthy) as Hd.
  cbv zeta in Hd. rewrite Hstrip in Hd. fold qr in Hd.
  destruct Hd as (Hhd & Hret & Hgo & Hwait).
  repeat split; auto.
  intros Habs.
  destruct Hret as [Hr|Hr].
  - rewrite (Hgo Hr) in Habs. unfold lr_prepend in Habs.
    inversion Habs as [[He Ha Hp Hs Htr]].
    destruct (qr_trace qr) as [|ev t]; [discriminate|].
    simpl in Hhd. inversion Hhd; subst ev. simpl in Htr. discriminate.
  - rewrite (Hwait Hr) in Habs. discriminate.
Qed.

(** ** The trace and the transcript

    The appends and pops that a trace records are the changes that the
    transcript undergoes, so that an observer of the trace knows the
    transcript at every event. *)

Lemma replay_app h t1 t2 : replay h (t1 ++ t2) = replay (replay h t1) t2.
Proof.
  revert h; induction t1 as [|ev t1 IH]; intros h; simpl; [reflexivity|].
  destruct ev; simpl; apply IH.
Qed.

Lemma execute_tool_call_replay h a tc p :
  replay h (snd (execute_tool_call a tc p)) = h.
Proof.
  unfold execute_tool_call.
  destruct (json_loads (tc_arguments tc)) as [e|args]; simpl; [reflexivity|].
  destruct (session a); simpl; [|reflexivity].
  destruct args as [| | | | |kwargs]; simpl; try reflexivity.
  destruct (call_tool p (tc_name tc) kwargs) as [p' [e|out]]; simpl;
    [reflexivity|].
  destruct (json_dumps (tool_result_content out)); reflexivity.
Qed.

Lemma execute_tool_calls_replay h a calls :
  forall acc p, replay h (snd (execute_tool_calls a calls acc p)) = h.
Proof.
  induction calls as [|tc calls IH]; intros acc p; simpl; [reflexivity|].
  pose proof (execute_tool_call_replay h a tc p) as H1.
  destruct (execute_tool_call a tc p) as [[[e|entry] p'] t1]; simpl in *;
    [exact H1|].
  specialize (IH (acc ++ [entry]) p').
  destruct (execute_tool_calls a calls (acc ++ [entry]) p')
    as [[res p2] t2]; simpl in *.
  now rewrite replay_app, H1.
Qed.

Lemma handle_response_replay m a p nx a1 p1 t :
  handle_response m a p = (nx, a1, p1, t) ->
  replay (history a) t = history a1.
Proof.
  unfold handle_response.
  destruct (has_tool_calls m).
  - pose proof (execute_tool_calls_replay (history a) a (requested_calls m) [] p)
      as H.
    destruct (execute_tool_calls a (requested_calls m) [] p)
      as [[[e|entries] p'] t2]; simpl in H;
      intros E; inversion E; subst; clear E; simpl.
    + exact H.
    + rewrite replay_app, H. reflexivity.
  - intros E; inversion E; subst; reflexivity.
Qed.

Lemma query_loop_replay script :
  forall a p,
    replay (history a) (lr_trace (query_loop script a p))
    = history (lr_agent (query_loop script a p)).
Proof.
  induction script as [|o script IH]; intros a p; simpl.
  - destruct (client a), (tool_definitions a); reflexivity.
  - destruct (client a), (tool_definitions a) as [tools|]; simpl;
      try reflexivity.
    destruct o as [e|m]; simpl; [reflexivity|].
    destruct (handle_response m a p) as [[[nx a1] p1] t1] eqn:E.
    apply handle_response_replay in E.
    destruct nx as [|e]; simpl.
    + now rewrite replay_app, E, IH.
    + exact E.
Qed.

Lemma process_user_query_replay q a p script :
  replay (history a) (qr_trace (process_user_query q a p script))
  = history (qr_agent (process_user_query q a p script)).
Proof.
  pose proof (query_loop_replay script (history_append a (MDict "user" q)) p)
    as H.
  simpl in H. unfold process_user_query.
  destruct (lr_end _); simpl; try exact H.
  destruct (list_pop _) as [[h m]|] eqn:Ep; simpl.
  - rewrite !replay_app, H. simpl.
    apply list_pop_some in Ep. rewrite Ep. apply removelast_last.
  - rewrite replay_app, H. reflexivity.
Qed.

(** ** What a query does, and what it never does *)

Lemma Forall_filter_nil {A : Type} (P : A -> Prop) (f : A -> bool) (l : list A) :
  (forall x, P x -> f x = false) -> Forall P l -> filter f l = [].
Proof.
  intros Hf. induction 1 as [|x l Hx _ IH]; simpl; [reflexivity|].
  now rewrite (Hf x Hx).
Qed.

Lemma execute_tool_call_kind a tc p :
  Forall (fun ev => for_loop_event ev = true) (snd (execute_tool_call a tc p)).
Proof.
  unfold execute_tool_call.
  destruct (json_loads (tc_arguments tc)) as [e|args]; simpl;
    [constructor|].
  destruct (session a); simpl; [|repeat constructor].
  destruct args as [| | | | |kwargs]; simpl; try (repeat constructor).
  destruct (call_tool p (tc_name tc) kwargs) as [p' [e|out]]; simpl;
    [repeat constructor|].
  destruct (json_dumps (tool_result_content out)); simpl;
    repeat constructor.
Qed.

Lemma execute_tool_calls_kind a calls :
  forall acc p,
    Forall (fun ev => for_loop_event ev = true)
           (snd (execute_tool_calls a calls acc p)).
Proof.
  induction calls as [|tc calls IH]; intros acc p; simpl; [constructor|].
  pose proof (execute_tool_call_kind a tc p) as H1.
  destruct (execute_tool_call a tc p) as [[[e|entry] p'] t1]; simpl in *;
    [exact H1|].
  specialize (IH (acc ++ [entry]) p').
  destruct (execute_tool_calls a calls (acc ++ [entry]) p')
    as [[res p2] t2]; simpl in *.
  apply Forall_app; auto.
Qed.

Lemma for_loop_event_agent ev : for_loop_event ev = true -> agent_event ev = true.
Proof. destruct ev as [[]| | | | | | | | |]; simpl; congruence. Qed.

Lemma handle_response_kind m a p :
  Forall (fun ev => agent_event ev = true) (snd (handle_response m a p)).
Proof.
  unfold handle_response.
  destruct (has_tool_calls m); [|repeat constructor].
  pose proof (execute_tool_calls_kind a (requested_calls m) [] p) as H.
  assert (H' : Forall (fun ev => agent_event ev = true)
                      (snd (execute_tool_calls a (requested_calls m) [] p)))
    by (eapply Forall_impl; [|exact H]; apply for_loop_event_agent).
  destruct (execute_tool_calls a (requested_calls m) [] p)
    as [[[e|entries] p'] t2]; simpl in *.
  - constructor; [reflexivity|exact H'].
  - constructor; [reflexivity|]. apply Forall_app. split; [exact H'|].
    repeat constructor.
Qed.

Lemma query_loop_kind script :
  forall a p,
    Forall (fun ev => agent_event ev = true) (lr_trace (query_loop script a p)).
Proof.
  induction script as [|o script IH]; intros a p; simpl.
  - destruct (client a), (tool_definitions a); simpl; repeat constructor.
  - destruct (client a), (tool_definitions a) as [tools|]; simpl;
      try (repeat constructor).
    destruct o as [e|m]; simpl; [repeat constructor|].
    pose proof (handle_response_kind m a p) as Hh.
    destruct (handle_response m a p) as [[[nx a1] p1] t1].
    simpl in Hh.
    destruct nx as [|e]; simpl.
    + constructor; [reflexivity|]. apply Forall_app. split; [exact Hh|apply IH].
    + constructor; [reflexivity|exact Hh].
Qed.

Lemma process_user_query_kind q a p script :
  Forall (fun ev => agent_event ev = true)
         (qr_trace (process_user_query q a p script)).
Proof.
  pose proof (query_loop_kind script (history_append a (MDict "user" q)) p)
    as Ht.
  unfold process_user_query.
  destruct (lr_end _); simpl.
  - constructor; [reflexivity|exact Ht].
  - destruct (list_pop _) as [[h m]|]; simpl.
    + constructor; [reflexivity|].
      apply Forall_app; split; [|repeat constructor].
      apply Forall_app; split; [exact Ht|repeat constructor].
    + constructor; [reflexivity|].
      apply Forall_app; split; [exact Ht|repeat constructor].
  - constructor; [reflexivity|exact Ht].
Qed.

Lemma query_loop_awaiting script :
  forall a p,
    lr_end (query_loop script a p) = Awaiting ->
    lr_script (query_loop script a p) = [].
Proof.
  induction script as [|o script IH]; intros a p; simpl.
  - destruct (client a), (tool_definitions a); simpl; try discriminate.
    reflexivity.
  - destruct (client a), (tool_definitions a) as [tools|]; simpl;
      try discriminate.
    destruct o as [e|m]; simpl; [discriminate|].
    destruct (handle_response m a p) as [[[nx a1] p1] t1] eqn:E.
    destruct nx as [|e]; simpl.
    + apply IH.
    + intros ->. unfold handle_response in E.
      destruct (has_tool_calls m).
      * destruct (execute_tool_calls a (requested_calls m) [] p)
          as [[[e'|entries] p'] t2]; discriminate.
      * discriminate.
Qed.


Lemma process_user_query_prefix q a p script :
  exists l, history (qr_agent (process_user_query q a p script))
            = history a ++ l.
Proof.
  destruct (query_loop_setup script (history_append a (MDict "user" q)) p)
    as (_ & l & Hl).
  simpl in Hl. rewrite <- app_assoc in Hl. simpl in Hl.
  unfold process_user_query.
  destruct (lr_end _); simpl; try (eexists; exact Hl).
  destruct (list_pop _) as [[h m]|] eqn:Ep; simpl; [|eexists; exact Hl].
  apply list_pop_some in Ep. rewrite Hl in Ep.
  destruct (nil_or_last l) as [->|(l' & x & ->)].
  - apply app_inj_tail in Ep as (-> & _). exists []. now rewrite app_nil_r.
  - change (history a ++ MDict "user" q :: l' ++ [x])
      with (history a ++ (MDict "user" q :: l') ++ [x]) in Ep.
    rewrite app_assoc in Ep.
    apply app_inj_tail in Ep as (<- & _). eauto.
Qed.

(** X2: the messages that the transcript holds when the console loop
    starts (the system message among them) are never altered, reordered or
    removed: through the queries of a session, the failed ones and their
    roll-back included, the transcript only changes behind them. *)
Theorem console_loop_keeps_earlier_messages inputs :
  forall a p script,
    exists l,
      history (lr_agent (input_loop inputs a p script)) = history a ++ l.
Proof.
  induction inputs as [|line inputs IH]; intros a p script.
  - exists []. simpl. now rewrite app_nil_r.
  - rewrite input_loop_cons.
    destruct (PyStr.mem (PyStr.lower line) ["exit"; "quit"]).
    { exists []. simpl. now rewrite app_nil_r. }
    destruct (PyStr.truthy (PyStr.strip line)); cbv zeta.
    + destruct (process_user_query_prefix (PyStr.strip line) a p script)
        as (l & Hl).
      set (r := process_user_query (PyStr.strip line) a p script) in *.
      destruct (qr_return r); simpl; try (eexists; exact Hl).
      destruct (IH (qr_agent r) (qr_provider r) (qr_script r)) as (l' & Hl').
      exists (l ++ l'). rewrite Hl', Hl. now rewrite app_assoc.
    + destruct (IH a p script) as (l & Hl). exists l. exact Hl.
Qed.

(** X3: a query on an agent that [initialize] has not set up (no client,
    or no tool definitions) fails on its first request with an
    [AttributeError], which the handler catches: the error is printed, the
    user message is taken back, and nothing is sent to the endpoint or to
    the provider. *)
Theorem query_before_initialize q a p script :
  client a = false \/ tool_definitions a = None ->
  exists what,
    qr_trace (process_user_query q a p script)
    = [EvHistoryAppend (MDict "user" q);
       EvPrint (PError (AttributeError what));
       EvHistoryPop (MDict "user" q)] /\
    history (qr_agent (process_user_query q a p script)) = history a /\
    qr_return (process_user_query q a p script) = Returned PyNone /\
    qr_script (process_user_query q a p script) = script /\
    qr_provider (process_user_query q a p script) = p.
Proof.
  intros H.
  assert (Hq : exists what,
             query_loop script (history_append a (MDict "user" q)) p
             = mkLoopResult (Raised (AttributeError what))
                 (history_append a (MDict "user" q)) p script []).
  { destruct script; simpl; destruct (client a);
      destruct (tool_definitions a); destruct H as [H|H];
      try discriminate; eauto. }
  destruct Hq as (what & Hq). exists what.
  unfold process_user_query. rewrite Hq. simpl.
  rewrite list_pop_app. simpl. repeat split.
Qed.

Lemma handle_response_outcome m a p nx a1 p1 t :
  handle_response m a p = (nx, a1, p1, t) ->
  filter (fun ev => is_final_answer ev || is_error ev) t
  = match nx with
    | Stop Finished => [EvPrint (PFinalAnswer (rm_content m))]
    | _ => []
    end /\
  (nx = Stop Finished ->
   has_tool_calls m = false /\ history a1 = history a ++ [MResponse m]).
Proof.
  unfold handle_response.
  destruct (has_tool_calls m).
  - pose proof (execute_tool_calls_kind a (requested_calls m) [] p) as H.
    assert (Hf : filter (fun ev => is_final_answer ev || is_error ev)
                        (snd (execute_tool_calls a (requested_calls m) [] p))
                 = []).
    { eapply Forall_filter_nil; [|exact H].
      intros [[]| | | | | | | | |]; simpl; congruence. }
    destruct (execute_tool_calls a (requested_calls m) [] p)
      as [[[e|entries] p'] t2]; simpl in Hf;
      intros E; inversion E; subst; clear E; simpl.
    + rewrite Hf. split; [reflexivity|discriminate].
    + rewrite filter_app, Hf. split; [reflexivity|discriminate].
  - intros E; inversion E; subst; clear E. simpl. auto.
Qed.

Lemma query_loop_outcome script :
  forall a p,
    match lr_end (query_loop script a p) with
    | Finished =>
        exists h m,
          history (lr_agent (query_loop script a p)) = h ++ [MResponse m] /\
          has_tool_calls m = false /\
          filter (fun ev => is_final_answer ev || is_error ev)
                 (lr_trace (query_loop script a p))
          = [EvPrint (PFinalAnswer (rm_content m))]
    | _ =>
        filter (fun ev => is_final_answer ev || is_error ev)
               (lr_trace (query_loop script a p)) = []
    end.
Proof.
  induction script as [|o script IH]; intros a p; simpl.
  - destruct (client a), (tool_definitions a); reflexivity.
  - destruct (client a), (tool_definitions a) as [tools|]; simpl;
      try reflexivity.
    destruct o as [e|m]; simpl; [reflexivity|].
    destruct (handle_response m a p) as [[[nx a1] p1] t1] eqn:E.
    apply handle_response_outcome in E as (Hf & Hfin).
    destruct nx as [|[|e|]]; simpl.
    + specialize (IH a1 p1).
      destruct (lr_end (query_loop script a1 p1)).
      * destruct IH as (h & m' & Hh & Hm & Hl).
        exists h, m'. rewrite filter_app, Hf, Hl. auto.
      * now rewrite filter_app, Hf, IH.
      * now rewrite filter_app, Hf, IH.
    + destruct (Hfin eq_refl) as (Hm & Hh).
      exists (history a), m. auto.
    + exact Hf.
    + exact Hf.
Qed.

(** X4: a query that returns has told the operator exactly one outcome:
    either the final answer, which is the content of the response that now
    ends the transcript, or the error that stopped it; never both, never
    none.  A query that is still waiting for the endpoint has printed
    neither. *)
Theorem one_outcome_line_per_query q a p script :
  (qr_return (process_user_query q a p script) = Blocked ->
   filter (fun ev => is_final_answer ev || is_error ev)
          (qr_trace (process_user_query q a p script)) = []) /\
  (qr_return (process_user_query q a p script) = Returned PyNone ->
   (exists h m,
       history (qr_agent (process_user_query q a p script))
       = h ++ [MResponse m] /\
       has_tool_calls m = false /\
       filter (fun ev => is_final_answer ev || is_error ev)
              (qr_trace (process_user_query q a p script))
       = [EvPrint (PFinalAnswer (rm_content m))]) \/
   (exists e,
       filter (fun ev => is_final_answer ev || is_error ev)
              (qr_trace (process_user_query q a p script))
       = [EvPrint (PError e)])).
Proof.
  pose proof (query_loop_outcome script (history_append a (MDict "user" q)) p)
    as H.
  pose proof (process_user_query_return q a p script) as Hret.
  revert Hret. unfold process_user_query.
  destruct (lr_end _) as [|e|]; simpl.
  - intros _. split; [discriminate|]. intros _. left.
    destruct H as (h & m & Hh & Hm & Hl). exists h, m. auto.
  - destruct (list_pop _) as [[h m]|]; simpl; intros Hret;
      try discriminate.
    split; [discriminate|]. intros _. right. exists e.
    rewrite !filter_app, H. reflexivity.
  - intros _. split; [intros _; exact H|discriminate].
Qed.

(** ** The requests to the endpoint *)

Lemma requests_carry_app model t1 :
  forall h t2,
    requests_carry model h (t1 ++ t2) <->
    requests_carry model h t1 /\ requests_carry model (replay h t1) t2.
Proof.
  induction t1 as [|ev t1 IH]; intros h t2; simpl; [tauto|].
  destruct ev; simpl; rewrite ?IH; tauto.
Qed.

Lemma for_loop_requests model t :
  Forall (fun ev => for_loop_event ev = true) t ->
  forall h, requests_carry model h t.
Proof.
  induction 1 as [|ev t Hev _ IH]; intros h; simpl; [exact I|].
  destruct ev as [[]| | | | | | | | |]; simpl in *; try discriminate;
    apply IH.
Qed.

Lemma handle_response_requests model m a p :
  requests_carry model (history a) (snd (handle_response m a p)).
Proof.
  unfold handle_response.
  destruct (has_tool_calls m); [|simpl; exact I].
  pose proof (execute_tool_calls_kind a (requested_calls m) [] p) as H.
  destruct (execute_tool_calls a (requested_calls m) [] p)
    as [[[e|entries] p'] t2]; simpl in *.
  - now apply for_loop_requests.
  - apply requests_carry_app. split; [now apply for_loop_requests|].
    simpl. exact I.
Qed.

Lemma query_loop_requests script :
  forall a p,
    requests_carry (model_name a) (history a)
      (lr_trace (query_loop script a p)).
Proof.
  induction script as [|o script IH]; intros a p; simpl.
  - destruct (client a), (tool_definitions a); simpl; auto.
  - destruct (client a), (tool_definitions a) as [tools|]; simpl; auto.
    destruct o as [e|m]; simpl; auto.
    pose proof (handle_response_requests (model_name a) m a p) as Hh.
    destruct (handle_response m a p) as [[[nx a1] p1] t1] eqn:E.
    simpl in Hh.
    pose proof (handle_response_replay _ _ _ _ _ _ _ E) as Hr.
    apply handle_response_setup in E as ((_&_&Hm&_) & _).
    destruct nx as [|e]; simpl.
    + split; [reflexivity|]. split; [reflexivity|].
      apply requests_carry_app. split; [exact Hh|].
      rewrite Hr, <- Hm. apply IH.
    + auto.
Qed.

Lemma process_user_query_requests q a p script :
  requests_carry (model_name a) (history a)
    (qr_trace (process_user_query q a p script)).
Proof.
  pose proof (query_loop_requests script (history_append a (MDict "user" q)) p)
    as H.
  simpl in H. unfold process_user_query.
  destruct (lr_end _); simpl; try exact H.
  destruct (list_pop _) as [[h m]|]; simpl.
  - rewrite <- app_assoc. apply requests_carry_app. split; [exact H|].
    simpl. exact I.
  - apply requests_carry_app. split; [exact H|]. simpl. exact I.
Qed.

(** X5: every request that a session sends to the endpoint names the
    agent's model and carries the whole transcript as it stands at that
    moment: all the messages appended so far, those of earlier queries
    included, less the ones that a handler has popped. *)
Theorem requests_carry_whole_transcript inputs :
  forall a p script,
    requests_carry (model_name a) (history a)
      (lr_trace (input_loop inputs a p script)).
Proof.
  induction inputs as [|line inputs IH]; intros a p script.
  - simpl. exact I.
  - rewrite input_loop_cons.
    destruct (PyStr.mem (PyStr.lower line) ["exit"; "quit"]); [simpl; exact I|].
    destruct (PyStr.truthy (PyStr.strip line)); cbv zeta.
    + pose proof (process_user_query_requests (PyStr.strip line) a p script)
        as Hq.
      pose proof (process_user_query_replay (PyStr.strip line) a p script)
        as Hr.
      destruct (process_user_query_catalog (PyStr.strip line) a p script)
        as ((_&_&Hm&_) & _).
      set (r := process_user_query (PyStr.strip line) a p script) in *.
      destruct (qr_return r); simpl; try exact Hq.
      apply requests_carry_app. split; [exact Hq|].
      rewrite Hr, <- Hm. apply IH.
    + simpl. apply IH.
Qed.

(** ** Requests and their results in the transcript *)

Lemma well_paired_app h l :
  well_paired h -> well_paired l -> well_paired (h ++ l).
Proof.
  induction 1 as [|r text l0 _ IH|m0 l0 Hm0 _ IH|m0 es l0 Hm0 Hids _ IH];
    intros Hl; simpl.
  - exact Hl.
  - apply wp_dict; auto.
  - apply wp_answer; auto.
  - apply wp_turn; auto.
Qed.

Lemma well_paired_last_response l m :
  well_paired (l ++ [MResponse m]) -> has_tool_calls m = false.
Proof.
  intros H. remember (l ++ [MResponse m]) as x eqn:Hx.
  revert l Hx.
  induction H as [|r text l0 _ IH|m0 l0 Hm0 _ IH|m0 es l0 Hm0 Hids _ IH];
    intros l Hx.
  - destruct l; discriminate.
  - destruct l as [|y l]; [discriminate|].
    inversion Hx; subst. eapply IH; reflexivity.
  - destruct l as [|y l].
    + inversion Hx; subst. exact Hm0.
    + inversion Hx; subst. eapply IH; reflexivity.
  - destruct l as [|y [|z l]]; try discriminate.
    inversion Hx; subst. eapply IH; reflexivity.
Qed.

Lemma handle_response_paired m a p nx a1 p1 t :
  well_paired (history a) ->
  handle_response m a p = (nx, a1, p1, t) ->
  well_paired (history a1).
Proof.
  intros Hw. unfold handle_response.
  destruct (has_tool_calls m) eqn:Hm.
  - destruct (execute_tool_calls a (requested_calls m) [] p)
      as [[[e|entries] p'] t2] eqn:E;
      intros H; inversion H; subst; clear H; [exact Hw|].
    apply execute_tool_calls_ok in E as (entries' & Heq & _ & Htr).
    simpl in Heq; subst entries'.
    simpl. rewrite <- app_assoc. simpl.
    apply well_paired_app; [exact Hw|].
    apply wp_turn; [exact Hm| |constructor].
    eapply for_loop_trace_ids; eauto.
  - intros H; inversion H; subst; clear H. simpl.
    apply well_paired_app; [exact Hw|].
    apply wp_answer; [exact Hm|constructor].
Qed.

Lemma query_loop_paired script :
  forall a p,
    well_paired (history a) ->
    well_paired (history (lr_agent (query_loop script a p))).
Proof.
  induction script as [|o script IH]; intros a p Hw; simpl.
  - destruct (client a), (tool_definitions a); exact Hw.
  - destruct (client a), (tool_definitions a) as [tools|]; simpl;
      try exact Hw.
    destruct o as [e|m]; simpl; [exact Hw|].
    destruct (handle_response m a p) as [[[nx a1] p1] t1] eqn:E.
    apply (handle_response_paired _ _ _ _ _ _ _ Hw) in E.
    destruct nx as [|e]; simpl; [now apply IH|exact E].
Qed.

(** X6: in a transcript where every assistant request for tool calls is
    followed by the tool-role message that carries the identifiers of
    those calls, in their order, a query during which nothing raises keeps
    it so: the request and its results are appended together, and the final
    answer requests no call. *)
Theorem query_keeps_requests_answered q a p script :
  well_paired (history a) ->
  (forall e,
      lr_end (query_loop script (history_append a (MDict "user" q)) p)
      <> Raised e) ->
  well_paired (history (qr_agent (process_user_query q a p script))).
Proof.
  intros Hw Hno.
  assert (Hu : well_paired (history (history_append a (MDict "user" q)))).
  { simpl. apply well_paired_app; [exact Hw|repeat constructor]. }
  pose proof (query_loop_paired script _ p Hu) as H.
  unfold process_user_query.
  destruct (lr_end _) as [|e|] eqn:E; simpl; try exact H.
  exfalso. exact (Hno e eq_refl).
Qed.

Lemma query_loop_raised_turns script :
  forall a p e,
    lr_end (query_loop script a p) = Raised e ->
    exists done,
      Forall (fun turn => has_tool_calls (fst turn) = true) done /\
      history (lr_agent (query_loop script a p))
      = history a ++ flat_map turn_messages done.
Proof.
  induction script as [|o script IH]; intros a p e; simpl.
  - destruct (client a), (tool_definitions a); simpl; try discriminate;
      intros _; exists []; simpl; rewrite app_nil_r; auto.
  - destruct (client a), (tool_definitions a) as [tools|]; simpl;
      try (intros _; exists []; simpl; rewrite app_nil_r; now auto).
    destruct o as [e'|m]; simpl.
    { intros _. exists []. simpl. rewrite app_nil_r. auto. }
    destruct (handle_response m a p) as [[[nx a1] p1] t1] eqn:E.
    destruct nx as [|[|e'|]]; simpl; try discriminate.
    + intros H. destruct (IH a1 p1 e H) as (done & Hcalls & Hh).
      apply handle_response_continue in E
        as (Hm & entries & t_for & _ & -> & _).
      exists ((m, entries) :: done). split; [constructor; assumption|].
      rewrite Hh. simpl. now rewrite <- !app_assoc.
    + intros _. apply handle_response_stop_raised in E as ->.
      exists []. simpl. rewrite app_nil_r. auto.
Qed.

(** X7: when the roll-back of a failed query does not give back the
    transcript of before the query, what it leaves ends with an assistant
    message that requests tool calls and has no results behind it: the
    handler has popped the results of the last completed iteration and
    left their request, which the next request to the endpoint will carry
    unanswered. *)
Theorem failed_query_leaves_unanswered_request q a p script e :
  lr_end (query_loop script (history_append a (MDict "user" q)) p) = Raised e ->
  history (qr_agent (process_user_query q a p script)) <> history a ->
  exists h m,
    history (qr_agent (process_user_query q a p script))
    = history a ++ MDict "user" q :: h ++ [MResponse m] /\
    has_tool_calls m = true /\
    ~ well_paired (history (qr_agent (process_user_query q a p script))).
Proof.
  intros Hend.
  destruct (query_loop_raised_turns _ _ _ _ Hend) as (done & Hcalls & Hh).
  simpl in Hh. rewrite <- app_assoc in Hh. simpl in Hh.
  unfold process_user_query. rewrite Hend.
  destruct (nil_or_last done) as [->|(done' & [m entries] & ->)].
  - simpl in Hh. rewrite Hh, list_pop_app. simpl. congruence.
  - rewrite flat_map_app in Hh. simpl in Hh.
    assert (Hpop : list_pop (history (lr_agent
                     (query_loop script (history_append a (MDict "user" q)) p)))
                   = Some (history a ++ MDict "user" q
                             :: flat_map turn_messages done' ++ [MResponse m],
                           MToolResults entries)).
    { rewrite Hh, <- list_pop_app. f_equal.
      rewrite <- !app_assoc. simpl. rewrite <- !app_assoc. reflexivity. }
    rewrite Hpop. simpl. intros _.
    apply Forall_app in Hcalls as (_ & Hm).
    inversion Hm as [|x l Hm' _]; subst; simpl in Hm'.
    exists (flat_map turn_messages done'), m.
    split; [reflexivity|]. split; [exact Hm'|].
    intros Hw.
    change (history a ++ MDict "user" q
              :: flat_map turn_messages done' ++ [MResponse m])
      with (history a ++ (MDict "user" q :: flat_map turn_messages done')
              ++ [MResponse m]) in Hw.
    rewrite app_assoc in Hw.
    apply well_paired_last_response in Hw. congruence.
Qed.

(** ** A tool call that fails *)

Lemma execute_tool_calls_app a l1 :
  forall l2 acc p r1 p1 t1,
    execute_tool_calls a l1 acc p = (inr r1, p1, t1) ->
    execute_tool_calls a (l1 ++ l2) acc p
    = (let '(res, p2, t2) := execute_tool_calls a l2 r1 p1 in
       (res, p2, t1 ++ t2)).
Proof.
  induction l1 as [|tc l1 IH]; intros l2 acc p r1 p1 t1 H; simpl in *.
  - inversion H; subst.
    destruct (execute_tool_calls a l2 r1 p1) as [[res p2] t2]. reflexivity.
  - destruct (execute_tool_call a tc p) as [[[e|entry] p'] t0];
      [discriminate|].
    destruct (execute_tool_calls a l1 (acc ++ [entry]) p')
      as [[res' p2'] t2'] eqn:E.
    inversion H; subst; clear H.
    rewrite (IH l2 _ _ _ _ _ E).
    destruct (execute_tool_calls a l2 r1 p1) as [[res p2] t2].
    now rewrite app_assoc.
Qed.

Lemma execute_tool_call_invokes_once a tc p :
  List.length (invocations (snd (execute_tool_call a tc p))) <= 1.
Proof.
  unfold execute_tool_call.
  destruct (json_loads (tc_arguments tc)) as [e|args]; simpl; [lia|].
  destruct (session a); simpl; [|lia].
  destruct args as [| | | | |kwargs]; simpl; try lia.
  destruct (call_tool p (tc_name tc) kwargs) as [p' [e|out]]; simpl; [lia|].
  destruct (json_dumps (tool_result_content out)); simpl; lia.
Qed.

(** X8: when a tool call of a response fails (its arguments do not parse,
    the provider raises, or the result cannot be serialized), the iteration
    stops there: the calls requested after it are never invoked, nothing
    of the iteration reaches the transcript, the results of the calls
    already made are dropped, and the provider keeps the state those calls
    left it in. *)
Theorem failing_call_ends_the_turn m a p pre bad post entries p1 t_pre e p2 t_bad :
  requested_calls m = pre ++ bad :: post ->
  execute_tool_calls a pre [] p = (inr entries, p1, t_pre) ->
  execute_tool_call a bad p1 = (inl e, p2, t_bad) ->
  handle_response m a p
  = (Stop (Raised e), a, p2, EvPrint PToolCallRequested :: t_pre ++ t_bad) /\
  List.length (invocations (EvPrint PToolCallRequested :: t_pre ++ t_bad))
  = List.length pre + List.length (invocations t_bad) /\
  List.length (invocations t_bad) <= 1 /\
  filter is_history_append (EvPrint PToolCallRequested :: t_pre ++ t_bad) = [].
Proof.
  intros Hcalls Hpre Hbad.
  assert (Hall : execute_tool_calls a (pre ++ bad :: post) [] p
                 = (inl e, p2, t_pre ++ t_bad)).
  { rewrite (execute_tool_calls_app a pre (bad :: post) _ _ _ _ _ Hpre).
    simpl. rewrite Hbad. reflexivity. }
  split; [|split; [|split]].
  - unfold handle_response, has_tool_calls. rewrite Hcalls.
    destruct pre; simpl app at 1; cbv iota; rewrite Hall; reflexivity.
  - simpl. rewrite invocations_app, length_app. f_equal.
    apply execute_tool_calls_ok in Hpre as (entries' & _ & _ & Htr).
    apply for_loop_trace_invocations in Htr.
    symmetry. eapply Forall2_length; eauto.
  - pose proof (execute_tool_call_invokes_once a bad p1) as H.
    now rewrite Hbad in H.
  - simpl. eapply execute_tool_calls_no_append; eauto.
Qed.

(** X9: arguments that are JSON but no object (a list, a number, a string,
    [null]) never reach the provider: the call fails with a [TypeError] at
    the [**] of line 110, the provider is left in the state of the calls
    before it, and the iteration stops with nothing appended. *)
Theorem non_object_arguments_stop_before_the_provider
    m a p pre tc post entries p1 t_pre v :
  session a = true ->
  requested_calls m = pre ++ tc :: post ->
  execute_tool_calls a pre [] p = (inr entries, p1, t_pre) ->
  json_loads (tc_arguments tc) = inr v ->
  (forall kwargs, v <> JDict kwargs) ->
  exists what,
    handle_response m a p
    = (Stop (Raised (TypeError what)), a, p1,
       EvPrint PToolCallRequested :: t_pre
       ++ [EvPrint (PCalling (tc_name tc) v)]) /\
    List.length
      (invocations (EvPrint PToolCallRequested :: t_pre
                    ++ [EvPrint (PCalling (tc_name tc) v)]))
    = List.length pre.
Proof.
  intros Hs Hcalls Hpre Hl Hv.
  assert (Hbad : exists what,
             execute_tool_call a tc p1
             = (inl (TypeError what), p1,
                [EvPrint (PCalling (tc_name tc) v)])).
  { unfold execute_tool_call. rewrite Hl, Hs. simpl.
    destruct v; eauto. exfalso. eapply Hv; reflexivity. }
  destruct Hbad as (what & Hbad). exists what.
  assert (Hall : execute_tool_calls a (pre ++ tc :: post) [] p
                 = (inl (TypeError what), p1,
                    t_pre ++ [EvPrint (PCalling (tc_name tc) v)])).
  { rewrite (execute_tool_calls_app a pre (tc :: post) _ _ _ _ _ Hpre).
    simpl. rewrite Hbad. reflexivity. }
  split.
  - unfold handle_response, has_tool_calls. rewrite Hcalls.
    destruct pre; simpl app at 1; cbv iota; rewrite Hall; reflexivity.
  - simpl. rewrite invocations_app, length_app. simpl.
    apply execute_tool_calls_ok in Hpre as (entries' & _ & _ & Htr).
    apply for_loop_trace_invocations in Htr.
    rewrite <- (Forall2_length Htr). lia.
Qed.

(** ** The session *)

(** X10: when start-up fails (the client of the endpoint or the server
    parameters cannot be built, the provider does not connect in time, or
    its tools cannot be listed), the session reports the critical error and closes the exit stack, and
    that is all: no system message is appended, no line is read from the
    console, nothing is sent to the endpoint or to the provider. *)
Theorem startup_failure_ends_session a up e inputs p script :
  up = ClientFails e \/ up = ParametersFail e \/
  up = ConnectFails e \/ up = ListingFails e ->
  exists t,
    lr_trace (run_interactive_session a up inputs p script)
    = t ++ [EvPrint (PCritical e); EvClose] /\
    t = snd (initialize a up) /\
    filter is_input t = [] /\
    catalogs_sent t = [] /\
    invocations t = [] /\
    filter is_history_append t = [] /\
    lr_end (run_interactive_session a up inputs p script) = Finished /\
    history (lr_agent (run_interactive_session a up inputs p script))
    = history a /\
    lr_script (run_interactive_session a up inputs p script) = script /\
    lr_provider (run_interactive_session a up inputs p script) = p.
Proof.
  intros [->|[->|[->| ->]]]; eexists; repeat split; reflexivity.
Qed.

Lemma agent_event_console ev : agent_event ev = true -> console_event ev = true.
Proof. destruct ev as [[]| | | | | | | | |]; simpl; congruence. Qed.

Lemma input_loop_kind inputs :
  forall a p script,
    Forall (fun ev => console_event ev = true)
           (lr_trace (input_loop inputs a p script)).
Proof.
  induction inputs as [|line inputs IH]; intros a p script.
  - constructor.
  - rewrite input_loop_cons.
    destruct (PyStr.mem (PyStr.lower line) ["exit"; "quit"]);
      [repeat constructor|].
    destruct (PyStr.truthy (PyStr.strip line)); cbv zeta.
    + assert (Hq : Forall (fun ev => console_event ev = true)
                     (qr_trace (process_user_query (PyStr.strip line) a p script))).
      { eapply Forall_impl; [|apply process_user_query_kind].
        apply agent_event_console. }
      set (r := process_user_query (PyStr.strip line) a p script) in *.
      destruct (qr_return r); simpl;
        try (constructor; [reflexivity|exact Hq]).
      constructor; [reflexivity|]. apply Forall_app. split; [exact Hq|apply IH].
    + simpl. constructor; [reflexivity|apply IH].
Qed.

(** X11: a session that ends has closed the exit stack exactly once, as
    its last act, whatever way it ended: start-up failure, exit command or
    end of the input.  A session that is still waiting for the endpoint has
    not closed it. *)
Theorem session_closes_once_at_the_end a up inputs p script :
  match lr_end (run_interactive_session a up inputs p script) with
  | Finished =>
      exists t,
        lr_trace (run_interactive_session a up inputs p script)
        = t ++ [EvClose] /\
        filter is_close t = []
  | _ =>
      filter is_close (lr_trace (run_interactive_session a up inputs p script))
      = []
  end.
Proof.
  assert (Hloop : forall a1,
             filter is_close (lr_trace (input_loop inputs a1 p script)) = []).
  { intros a1. eapply Forall_filter_nil; [|apply input_loop_kind].
    intros [[]| | | | | | | | |]; simpl; congruence. }
  unfold run_interactive_session.
  destruct up as [e|e|e|e|tools]; simpl.
  - exists [EvPrint PInitializing; EvPrint (PCritical e)]. auto.
  - exists [EvPrint PInitializing; EvPrint (PCritical e)]. auto.
  - eexists [_; _; _]. split; reflexivity.
  - eexists [_; _; _; _; _]. split; reflexivity.
  - match goal with
    | |- context [input_loop inputs ?a0 p script] =>
        specialize (Hloop a0); set (r := input_loop inputs a0 p script) in *
    end.
    destruct (lr_end r) as [|e|] eqn:Er; simpl; rewrite ?Er.
    + eexists (_ :: _ :: _ :: _ :: _ :: _ :: _ :: lr_trace r).
      split; [reflexivity|]. simpl. exact Hloop.
    + eexists (_ :: _ :: _ :: _ :: _ :: _ :: _ :: lr_trace r
               ++ [EvPrint (PCritical e)]).
      split; [simpl; rewrite <- app_assoc; reflexivity|].
      simpl. rewrite filter_app, Hloop. reflexivity.
    + simpl. exact Hloop.
Qed.



Lemma queries_dispatched_dict r q t :
  queries_dispatched (EvHistoryAppend (MDict r q) :: t)
  = (if String.eqb r "user" then [q] else []) ++ queries_dispatched t.
Proof.
  destruct r as [|[[] [] [] [] [] [] [] []] r]; try reflexivity.
  destruct r as [|[[] [] [] [] [] [] [] []] r]; try reflexivity.
  destruct r as [|[[] [] [] [] [] [] [] []] r]; try reflexivity.
  destruct r as [|[[] [] [] [] [] [] [] []] r]; try reflexivity.
  destruct r; reflexivity.
Qed.

Lemma queries_dispatched_app t1 t2 :
  queries_dispatched (t1 ++ t2)
  = queries_dispatched t1 ++ queries_dispatched t2.
Proof.
  induction t1 as [|ev t1 IH]; [reflexivity|].
  destruct ev as [| | | | | | |m| |]; try exact IH.
  destruct m as [r q| |]; try exact IH.
  change ((EvHistoryAppend (MDict r q) :: t1) ++ t2)
    with (EvHistoryAppend (MDict r q) :: (t1 ++ t2)).
  rewrite !queries_dispatched_dict, IH. now rewrite app_assoc.
Qed.

Lemma queries_dispatched_none t :
  Forall (fun ev => appends_dict ev = false) t -> queries_dispatched t = [].
Proof.
  induction 1 as [|ev t Hev _ IH]; [reflexivity|].
  destruct ev as [| | | | | | |m| |]; try exact IH.
  destruct m as [r q| |]; try exact IH. discriminate.
Qed.

Lemma handle_response_appends_no_dict m a p :
  Forall (fun ev => appends_dict ev = false) (snd (handle_response m a p)).
Proof.
  unfold handle_response.
  destruct (has_tool_calls m); [|repeat constructor].
  pose proof (execute_tool_calls_kind a (requested_calls m) [] p) as H.
  assert (H' : Forall (fun ev => appends_dict ev = false)
                      (snd (execute_tool_calls a (requested_calls m) [] p))).
  { eapply Forall_impl; [|exact H].
    intros [[]| | | | | | |[]| |]; simpl; congruence. }
  destruct (execute_tool_calls a (requested_calls m) [] p)
    as [[[e|entries] p'] t2]; simpl in *.
  - constructor; [reflexivity|exact H'].
  - constructor; [reflexivity|]. apply Forall_app. split; [exact H'|].
    repeat constructor.
Qed.

Lemma query_loop_appends_no_dict script :
  forall a p,
    Forall (fun ev => appends_dict ev = false)
           (lr_trace (query_loop script a p)).
Proof.
  induction script as [|o script IH]; intros a p; simpl.
  - destruct (client a), (tool_definitions a); simpl; repeat constructor.
  - destruct (client a), (tool_definitions a) as [tools|]; simpl;
      try (repeat constructor).
    destruct o as [e|m]; simpl; [repeat constructor|].
    pose proof (handle_response_appends_no_dict m a p) as Hh.
    destruct (handle_response m a p) as [[[nx a1] p1] t1].
    simpl in Hh.
    destruct nx as [|e]; simpl.
    + constructor; [reflexivity|]. apply Forall_app. split; [exact Hh|apply IH].
    + constructor; [reflexivity|exact Hh].
Qed.

Lemma process_user_query_dispatches_itself q a p script :
  queries_dispatched (qr_trace (process_user_query q a p script)) = [q].
Proof.
  pose proof (queries_dispatched_none _
                (query_loop_appends_no_dict script
                   (history_append a (MDict "user" q)) p)) as H.
  unfold process_user_query.
  destruct (lr_end _); simpl qr_trace.
  - rewrite queries_dispatched_dict, H. reflexivity.
  - destruct (list_pop _) as [[h m]|]; simpl qr_trace;
      rewrite queries_dispatched_dict, !queries_dispatched_app, H;
      reflexivity.
  - rewrite queries_dispatched_dict, H. reflexivity.
Qed.

Lemma console_queries_cons line rest :
  console_queries (line :: rest)
  = if is_exit_command line then []
    else if PyStr.truthy (PyStr.strip line)
         then PyStr.strip line :: console_queries rest
         else console_queries rest.
Proof.
  unfold console_queries. simpl.
  destruct (is_exit_command line); [reflexivity|].
  simpl. rewrite PyStrFacts.truthy_strip.
  destruct (PyStr.blank line); reflexivity.
Qed.

(** X13: the queries that a console session hands to the agent loop are
    the stripped texts of the lines that are not blank, in their order, up
    to the first exit command: each such line is dispatched once, whether
    the queries before it succeeded or failed, and nothing else is.  While
    the endpoint still owes an answer, the queries dispatched so far are
    the first of them. *)
Theorem console_dispatches_the_nonblank_lines inputs :
  forall a p script,
    exists later,
      console_queries inputs
      = queries_dispatched (lr_trace (input_loop inputs a p script)) ++ later /\
      (lr_end (input_loop inputs a p script) <> Awaiting -> later = []).
Proof.
  induction inputs as [|line inputs IH]; intros a p script.
  - exists []. split; [reflexivity|auto].
  - rewrite input_loop_cons, console_queries_cons. unfold is_exit_command.
    destruct (PyStr.mem (PyStr.lower line) ["exit"; "quit"]).
    { exists []. split; [reflexivity|auto]. }
    destruct (PyStr.truthy (PyStr.strip line)); cbv zeta.
    + pose proof (process_user_query_dispatches_itself
                    (PyStr.strip line) a p script) as Hq.
      pose proof (process_user_query_return (PyStr.strip line) a p script)
        as Hret.
      set (r := process_user_query (PyStr.strip line) a p script) in *.
      destruct (qr_return r); simpl lr_trace; simpl lr_end.
      * destruct (IH (qr_agent r) (qr_provider r) (qr_script r))
          as (later & Hl & He).
        exists later.
        change (EvInput line
                  :: qr_trace r
                  ++ lr_trace (input_loop inputs (qr_agent r) (qr_provider r)
                                 (qr_script r)))
          with ([EvInput line]
                  ++ qr_trace r
                  ++ lr_trace (input_loop inputs (qr_agent r) (qr_provider r)
                                 (qr_script r))).
        rewrite !queries_dispatched_app, Hq. simpl.
        split; [now rewrite Hl|exact He].
      * destruct (lr_end _); discriminate.
      * exists (console_queries inputs).
        change (EvInput line :: qr_trace r) with ([EvInput line] ++ qr_trace r).
        rewrite queries_dispatched_app, Hq. simpl.
        split; [reflexivity|congruence].
    + destruct (IH a p script) as (later & Hl & He).
      exists later. simpl. split; [exact Hl|exact He].
Qed.

(** ** The provider *)

Lemma provider_after_app p c1 c2 :
  provider_after Provider call_tool p (c1 ++ c2)
  = provider_after Provider call_tool
      (provider_after Provider call_tool p c1) c2.
Proof.
  revert p; induction c1 as [|[name kwargs] c1 IH]; intros p; simpl;
    [reflexivity|apply IH].
Qed.

Lemma execute_tool_call_provider a tc p :
  snd (fst (execute_tool_call a tc p))
  = provider_after Provider call_tool p
      (invocations (snd (execute_tool_call a tc p))).
Proof.
  unfold execute_tool_call.
  destruct (json_loads (tc_arguments tc)) as [e|args]; simpl; [reflexivity|].
  destruct (session a); simpl; [|reflexivity].
  destruct args as [| | | | |kwargs]; simpl; try reflexivity.
  destruct (call_tool p (tc_name tc) kwargs) as [p' [e|out]] eqn:Ec; simpl.
  - now rewrite Ec.
  - destruct (json_dumps (tool_result_content out)); simpl; now rewrite Ec.
Qed.

Lemma execute_tool_calls_provider a calls :
  forall acc p,
    snd (fst (execute_tool_calls a calls acc p))
    = provider_after Provider call_tool p
        (invocations (snd (execute_tool_calls a calls acc p))).
Proof.
  induction calls as [|tc calls IH]; intros acc p; simpl; [reflexivity|].
  pose proof (execute_tool_call_provider a tc p) as H1.
  destruct (execute_tool_call a tc p) as [[[e|entry] p'] t1]; simpl in *;
    [exact H1|].
  specialize (IH (acc ++ [entry]) p').
  destruct (execute_tool_calls a calls (acc ++ [entry]) p')
    as [[res p2] t2]; simpl in *.
  now rewrite invocations_app, provider_after_app, <- H1.
Qed.

Lemma handle_response_provider m a p nx a1 p1 t :
  handle_response m a p = (nx, a1, p1, t) ->
  p1 = provider_after Provider call_tool p (invocations t).
Proof.
  unfold handle_response.
  destruct (has_tool_calls m).
  - pose proof (execute_tool_calls_provider a (requested_calls m) [] p) as H.
    destruct (execute_tool_calls a (requested_calls m) [] p)
      as [[[e|entries] p'] t2]; simpl in H;
      intros E; inversion E; subst; clear E; simpl.
    + reflexivity.
    + rewrite invocations_app. simpl. now rewrite app_nil_r.
  - intros E; inversion E; subst; reflexivity.
Qed.

Lemma query_loop_provider script :
  forall a p,
    lr_provider (query_loop script a p)
    = provider_after Provider call_tool p
        (invocations (lr_trace (query_loop script a p))).
Proof.
  induction script as [|o script IH]; intros a p; simpl.
  - destruct (client a), (tool_definitions a); reflexivity.
  - destruct (client a), (tool_definitions a) as [tools|]; simpl;
      try reflexivity.
    destruct o as [e|m]; simpl; [reflexivity|].
    destruct (handle_response m a p) as [[[nx a1] p1] t1] eqn:E.
    apply handle_response_provider in E.
    destruct nx as [|e]; simpl.
    + now rewrite invocations_app, provider_after_app, <- E, IH.
    + exact E.
Qed.

Lemma process_user_query_provider q a p script :
  qr_provider (process_user_query q a p script)
  = provider_after Provider call_tool p
      (invocations (qr_trace (process_user_query q a p script))).
Proof.
  pose proof (query_loop_provider script (history_append a (MDict "user" q)) p)
    as H.
  unfold process_user_query.
  destruct (lr_end _); simpl; try exact H.
  destruct (list_pop _) as [[h m]|]; simpl;
    rewrite ?invocations_app; simpl; rewrite ?app_nil_r; exact H.
Qed.

(** X14: the provider is in the hands of the tool calls alone: the state
    it is in after a session's console loop is the one that the tool
    invocations of the session, made one after the other in the order of
    the trace, leave it in.  A roll-back of the transcript undoes none of
    them. *)
Theorem provider_state_follows_the_invocations inputs :
  forall a p script,
    lr_provider (input_loop inputs a p script)
    = provider_after Provider call_tool p
        (invocations (lr_trace (input_loop inputs a p script))).
Proof.
  induction inputs as [|line inputs IH]; intros a p script.
  - reflexivity.
  - rewrite input_loop_cons.
    destruct (PyStr.mem (PyStr.lower line) ["exit"; "quit"]); [reflexivity|].
    destruct (PyStr.truthy (PyStr.strip line)); cbv zeta.
    + pose proof (process_user_query_provider (PyStr.strip line) a p script)
        as Hq.
      set (r := process_user_query (PyStr.strip line) a p script) in *.
      destruct (qr_return r); simpl; try exact Hq.
      now rewrite invocations_app, provider_after_app, <- Hq, IH.
    + simpl. apply IH.
Qed.

End LoopFacts.

(** * The scenarios, on the test double *)

Lemma tool_turn_witness :
  1 <= List.length (requested_calls Demo.two_draws) /\
  handle_response Demo.json_loads Demo.json_dumps nat Demo.ticket_office
    Demo.two_draws Demo.ready 0
  = (Continue, Demo.after_draws, 2, snd Demo.drawn) /\
  exists entries,
    history Demo.after_draws
    = history Demo.ready ++ [MResponse Demo.two_draws; MToolResults entries] /\
    count_role "tool" (appended (history Demo.ready) (history Demo.after_draws))
    = 1 /\
    List.length entries = List.length (requested_calls Demo.two_draws) /\
    map tool_call_id entries = map tc_id (requested_calls Demo.two_draws) /\
    Forall2 (answers Demo.json_loads Demo.json_dumps nat Demo.ticket_office)
            (requested_calls Demo.two_draws) entries /\
    results_of Demo.json_loads Demo.json_dumps nat Demo.ticket_office
      0 (requested_calls Demo.two_draws) entries 2 /\
    (forall entries' p1',
        results_of Demo.json_loads Demo.json_dumps nat Demo.ticket_office
          0 (requested_calls Demo.two_draws) entries' p1' ->
        entries' = entries /\ p1' = 2).
Proof.
  split; [simpl; lia|]. split; [reflexivity|].
  apply (tool_turn_appends_one_results_message
           Demo.json_loads Demo.json_dumps nat Demo.ticket_office
           Demo.two_draws Demo.ready 0
           Demo.after_draws 2 (snd Demo.drawn)).
  - simpl; lia.
  - reflexivity.
Defined.

(** On the ticket office the two results of the iteration differ: the
    first entry holds the first ticket, the second entry the second. *)
Lemma results_follow_the_state_of_the_provider :
  history Demo.after_draws
  = history Demo.ready
    ++ [MResponse Demo.two_draws;
        MToolResults [Demo.drawn_entry 0; Demo.drawn_entry 1]] /\
  results_of Demo.json_loads Demo.json_dumps nat Demo.ticket_office
    0 [Demo.draw; Demo.draw] [Demo.drawn_entry 0; Demo.drawn_entry 1] 2.
Proof.
  split; [reflexivity|].
  eapply results_cons with (kwargs := [("query", JStr "X")]);
    [reflexivity|reflexivity|constructor; reflexivity
    |reflexivity|reflexivity|].
  eapply results_cons with (kwargs := [("query", JStr "X")]);
    [reflexivity|reflexivity|constructor; reflexivity
    |reflexivity|reflexivity|].
  constructor.
Qed.

(** The same entries in the other order are no results of these calls,
    though each of them is what the provider answers to the call in some
    state. *)
Lemma swapped_results_are_refused :
  Forall2 (answers Demo.json_loads Demo.json_dumps nat Demo.ticket_office)
          [Demo.draw; Demo.draw] [Demo.drawn_entry 1; Demo.drawn_entry 0] /\
  forall p1,
    ~ results_of Demo.json_loads Demo.json_dumps nat Demo.ticket_office
        0 [Demo.draw; Demo.draw] [Demo.drawn_entry 1; Demo.drawn_entry 0] p1.
Proof.
  split.
  - constructor; [|constructor; [|constructor]].
    + split; [reflexivity|]. split; [reflexivity|].
      exists [("query", JStr "X")], 1, 2, (Bare (Demo.ticket 1)).
      repeat split; reflexivity.
    + split; [reflexivity|]. split; [reflexivity|].
      exists [("query", JStr "X")], 0, 1, (Bare (Demo.ticket 0)).
      repeat split; reflexivity.
  - intros p1 H.
    destruct results_follow_the_state_of_the_provider as (_ & H0).
    destruct (results_of_unique _ _ _ _ _ _ _ _ _ _ H H0) as (Heq & _).
    discriminate Heq.
Qed.

(** C1, as stated, fails on a response with two tool-call requests: the
    iteration appends one tool-role message, not two. *)
Lemma one_tool_message_for_two_calls :
  ~ (forall m a served a1 served1 t,
        Demo.handle m a served = (Continue, a1, served1, t) ->
        count_role "tool" (appended (history a) (history a1))
        = List.length (requested_calls m)).
Proof.
  intros H.
  specialize (H Demo.two_calls Demo.ready 0
                Demo.after_turn (snd (fst Demo.turn)) (snd Demo.turn) eq_refl).
  vm_compute in H. discriminate.
Qed.

Lemma tool_calls_in_order_witness :
  Demo.handle Demo.two_calls Demo.ready 0
  = (Continue, Demo.after_turn, snd (fst Demo.turn), snd Demo.turn) /\
  exists entries t_for,
    for_loop_trace Demo.json_loads Demo.json_dumps
      (requested_calls Demo.two_calls) entries t_for /\
    snd Demo.turn
    = EvPrint PToolCallRequested :: t_for
      ++ [EvHistoryAppend (MResponse Demo.two_calls);
          EvHistoryAppend (MToolResults entries)] /\
    filter is_history_append t_for = [] /\
    Forall2 (fun tc inv =>
               fst inv = tc_name tc /\
               Demo.json_loads (tc_arguments tc) = inr (JDict (snd inv)))
            (requested_calls Demo.two_calls) (invocations (snd Demo.turn)) /\
    transcripts_at_calls (history Demo.ready) (snd Demo.turn)
    = map (fun _ => history Demo.ready) (requested_calls Demo.two_calls).
Proof.
  split; [reflexivity|].
  apply (tool_calls_in_order_results_appended_last
           Demo.json_loads Demo.json_dumps nat Demo.call_tool
           Demo.two_calls Demo.ready 0
           Demo.after_turn (snd (fst Demo.turn)) (snd Demo.turn)).
  reflexivity.
Defined.

(** C3, as stated, fails on a response with two tool-call requests: when
    the second call starts, the transcript is the system message and the
    user message, and holds no result of the first call. *)
Lemma second_call_starts_before_first_result_is_appended :
  ~ (forall h,
        nth_error
          (transcripts_at_calls (history Demo.ready)
             (qr_trace (Demo.query "q" Demo.ready
                          [LLMReply Demo.two_calls; LLMReply (Demo.says "done")])))
          1 = Some h ->
        existsb (carries "call_1") h = true).
Proof.
  intros H.
  specialize (H (history Demo.ready ++ [MDict "user" "q"]) eq_refl).
  vm_compute in H. discriminate.
Qed.

Lemma final_answer_witness :
  client Demo.ready = true /\
  tool_definitions Demo.ready = Some Demo.catalog /\
  Forall (fun m => has_tool_calls m = true) [Demo.one_call] /\
  has_tool_calls Demo.answer = false /\
  Demo.run_one_call = Some (Demo.served_once, 1) /\
  qr_return (Demo.query Demo.question Demo.ready
               [LLMReply Demo.one_call; LLMReply Demo.answer])
  = Returned PyNone /\
  history (qr_agent (Demo.query Demo.question Demo.ready
                       [LLMReply Demo.one_call; LLMReply Demo.answer]))
  = history Demo.served_once ++ [MResponse Demo.answer].
Proof.
  pose proof (final_answer_ends_query
                Demo.json_loads Demo.json_dumps nat Demo.call_tool
                Demo.question Demo.ready 0 Demo.catalog [Demo.one_call]
                Demo.answer []
                eq_refl eq_refl
                (Forall_cons Demo.one_call
                   (eq_refl : has_tool_calls Demo.one_call = true)
                   (Forall_nil _))
                eq_refl) as H.
  cbv zeta in H. destruct H as (Hret & Hrest).
  destruct (Hrest Demo.served_once 1 eq_refl) as (Hh & _).
  split; [reflexivity|]. split; [reflexivity|].
  split; [repeat constructor|]. split; [reflexivity|].
  split; [reflexivity|]. split; [exact Hret|exact Hh].
Defined.

(** C4, as stated, fails on every query: [process_user_query] has no
    [return] statement, so its caller gets [None], not the text. *)
Lemma final_answer_is_not_returned :
  qr_return (Demo.query Demo.question Demo.ready [LLMReply Demo.answer])
  <> Returned (PyText "X is ...").
Proof. vm_compute. discriminate. Qed.

Lemma single_tool_call_witness :
  client Demo.ready = true /\
  session Demo.ready = true /\
  tool_definitions Demo.ready = Some Demo.catalog /\
  Demo.json_loads (tc_arguments Demo.call1) = inr (JDict [("query", JStr "X")]) /\
  Demo.call_tool 0 (tc_name Demo.call1) [("query", JStr "X")]
  = (1, inr (Wrapped Demo.result_value)) /\
  serialized Demo.json_dumps (Wrapped Demo.result_value) Demo.result_text /\
  has_tool_calls Demo.answer = false /\
  history (qr_agent (Demo.query Demo.question Demo.ready
                       [LLMReply Demo.one_call; LLMReply Demo.answer]))
  = history Demo.ready
    ++ [MDict "user" "What is integration X?";
        MResponse Demo.one_call;
        MToolResults [{| tool_call_id := "call_1";
                         function_name := "search_docs";
                         content := Demo.result_text |}];
        MResponse Demo.answer] /\
  map message_content
      (appended (history Demo.ready)
         (history (qr_agent (Demo.query Demo.question Demo.ready
                               [LLMReply Demo.one_call; LLMReply Demo.answer]))))
  = [Some "What is integration X?"; None; None; Some "X is ..."].
Proof.
  assert (Hs : serialized Demo.json_dumps (Wrapped Demo.result_value)
                 Demo.result_text)
    by (constructor; reflexivity).
  pose proof (single_tool_call_scenario
                Demo.json_loads Demo.json_dumps nat Demo.call_tool
                Demo.question Demo.ready 0 Demo.catalog Demo.call1
                [("query", JStr "X")] (Wrapped Demo.result_value)
                Demo.result_text 1 None Demo.answer []
                eq_refl eq_refl eq_refl eq_refl eq_refl Hs eq_refl) as H.
  cbv zeta in H. destruct H as (Hh & _ & _ & Hc & _).
  split; [reflexivity|]. split; [reflexivity|]. split; [reflexivity|].
  split; [reflexivity|]. split; [reflexivity|]. split; [exact Hs|].
  split; [reflexivity|]. split; [exact Hh|exact Hc].
Defined.

(** C5, as stated, fails on its own scenario: the tool-role message that
    the query appends has no content; the JSON text of the provider's
    result is the content of the entry that the message holds under
    [tool_calls]. *)
Lemma tool_message_has_no_content_of_its_own :
  nth_error
    (appended (history Demo.ready)
       (history (qr_agent (Demo.query Demo.question Demo.ready
                             [LLMReply Demo.one_call; LLMReply Demo.answer]))))
    2
  = Some (MToolResults [Demo.entry1]) /\
  role (MToolResults [Demo.entry1]) = "tool" /\
  message_content (MToolResults [Demo.entry1]) <> Some Demo.result_text /\
  map content [Demo.entry1] = [Demo.result_text].
Proof.
  split; [reflexivity|]. split; [reflexivity|].
  split; [discriminate|reflexivity].
Qed.

(** C2 fails on the code where an exception follows a completed tool-call
    iteration: here the second request to the endpoint raises, and the
    handler pops the tool-result message; the user message of the failed
    query and the assistant's request stay, so the transcript is two
    messages longer than before the query. *)
Lemma rollback_after_tool_turn_keeps_two_messages :
  lr_end (Demo.loop Demo.failing_script
            (history_append Demo.ready (MDict "user" "q")))
  = Raised Demo.rate_limit /\
  history (qr_agent (Demo.query "q" Demo.ready Demo.failing_script))
  = history Demo.ready ++ [MDict "user" "q"; MResponse Demo.one_call] /\
  List.length (history (qr_agent (Demo.query "q" Demo.ready Demo.failing_script)))
  = List.length (history Demo.ready) + 2.
Proof. repeat split; reflexivity. Qed.

(** C6 fails on the code where the malformed arguments come in a later
    iteration of the query: the first query's first response is served, its
    second response asks for a call whose arguments are no JSON; the error
    is printed, and the transcript is left with the user message and the
    first request after the system message. *)
Lemma malformed_arguments_in_second_turn :
  Demo.json_loads (tc_arguments Demo.bad_call)
  = inl (LibraryError "JSONDecodeError") /\
  history Demo.ready = [MDict "system" system_prompt] /\
  In (EvPrint (PError (LibraryError "JSONDecodeError")))
     (qr_trace (Demo.query "q" Demo.ready Demo.malformed_script)) /\
  history (qr_agent (Demo.query "q" Demo.ready Demo.malformed_script))
  = [MDict "system" system_prompt; MDict "user" "q"; MResponse Demo.one_call].
Proof.
  split; [reflexivity|]. split; [reflexivity|]. split; [|reflexivity].
  vm_compute. intuition.
Qed.

(** Malformed arguments in the first response of a query: the transcript
    is back to what it was, for the first query the system message alone. *)
Lemma malformed_arguments_in_first_turn :
  history (qr_agent (Demo.query "q" Demo.ready
                       [LLMReply (Demo.asks [Demo.call1; Demo.bad_call])]))
  = [MDict "system" system_prompt].
Proof. reflexivity. Qed.

Lemma handler_pops_witness :
  lr_end (Demo.loop Demo.failing_script
            (history_append Demo.ready (MDict "user" "q")))
  = Raised Demo.rate_limit /\
  exists done bad popped,
    Demo.failing_script
    = map LLMReply (map fst done) ++ bad
      ++ qr_script (Demo.query "q" Demo.ready Demo.failing_script) /\
    List.length bad <= 1 /\
    Forall (fun turn =>
              Forall2 (answers Demo.json_loads Demo.json_dumps nat Demo.call_tool)
                      (requested_calls (fst turn)) (snd turn))
           done /\
    history Demo.ready ++ MDict "user" "q" :: flat_map turn_messages done
    = history (qr_agent (Demo.query "q" Demo.ready Demo.failing_script))
      ++ [popped].
Proof.
  split; [reflexivity|].
  pose proof (handler_pops_last_message
                Demo.json_loads Demo.json_dumps nat Demo.call_tool
                "q" Demo.ready 0 Demo.failing_script Demo.rate_limit eq_refl)
    as H.
  cbv zeta in H.
  destruct H as (done & bad & popped & Hs & Hb & Hans & Hh & _).
  exists done, bad, popped. repeat split; assumption.
Defined.

Lemma console_line_witness :
  (PyStr.lower "EXIT" = "exit" \/ PyStr.lower "EXIT" = "quit") /\
  Demo.console ["EXIT"; "never read"] []
  = mkLoopResult Finished Demo.ready 0 [] [EvInput "EXIT"; EvPrint PExiting] /\
  PyStr.blank "   " = true /\
  Demo.console ["   "; "Quit"] []
  = lr_prepend [EvInput "   "] (Demo.console ["Quit"] []) /\
  PyStr.lower " hello " <> "exit" /\
  PyStr.lower " hello " <> "quit" /\
  PyStr.blank " hello " = false /\
  PyStr.strip " hello " <> EmptyString /\
  hd_error (qr_trace (Demo.query (PyStr.strip " hello ") Demo.ready
                        [LLMReply (Demo.says "hi")]))
  = Some (EvHistoryAppend (MDict "user" "hello")).
Proof.
  destruct (console_line_dispatch
              Demo.json_loads Demo.json_dumps nat Demo.call_tool
              "EXIT" ["never read"] Demo.ready 0 []) as (Hexit & _ & _).
  destruct (console_line_dispatch
              Demo.json_loads Demo.json_dumps nat Demo.call_tool
              "   " ["Quit"] Demo.ready 0 []) as (_ & Hblank & _).
  destruct (console_line_dispatch
              Demo.json_loads Demo.json_dumps nat Demo.call_tool
              " hello " [] Demo.ready 0 [LLMReply (Demo.says "hi")])
    as (_ & _ & Hquery).
  assert (He : PyStr.lower " hello " <> "exit") by (vm_compute; discriminate).
  assert (Hq : PyStr.lower " hello " <> "quit") by (vm_compute; discriminate).
  destruct (Hquery He Hq eq_refl) as (Hne & Hhd & _).
  split; [left; reflexivity|]. split; [exact (Hexit (or_introl eq_refl))|].
  split; [reflexivity|]. split; [exact (Hblank eq_refl)|].
  split; [exact He|]. split; [exact Hq|]. split; [reflexivity|].
  split; [exact Hne|exact Hhd].
Defined.

Lemma padded_exit_witness :
  PyStr.blank " " = true /\
  (" " <> EmptyString \/ " " <> EmptyString) /\
  (PyStr.lower "exit" = "exit" \/ PyStr.lower "exit" = "quit") /\
  PyStr.mem (PyStr.lower " exit ") ["exit"; "quit"] = false /\
  PyStr.strip " exit " = "exit" /\
  Demo.console [" exit "; "quit"] [LLMReply (Demo.says "bye")]
  <> mkLoopResult Finished Demo.ready 0 [LLMReply (Demo.says "bye")]
       [EvInput " exit "; EvPrint PExiting] /\
  hd_error (qr_trace (Demo.query "exit" Demo.ready [LLMReply (Demo.says "bye")]))
  = Some (EvHistoryAppend (MDict "user" "exit")).
Proof.
  assert (Hpad : " " <> EmptyString \/ " " <> EmptyString)
    by (left; discriminate).
  pose proof (padded_exit_is_dispatched
                Demo.json_loads Demo.json_dumps nat Demo.call_tool
                " " "exit" " " ["quit"] Demo.ready 0 [LLMReply (Demo.says "bye")]
                eq_refl eq_refl Hpad (or_introl eq_refl)) as H.
  cbv zeta in H. destruct H as (Hmem & Hstrip & Hne & Hhd & _).
  split; [reflexivity|]. split; [exact Hpad|]. split; [left; reflexivity|].
  split; [exact Hmem|]. split; [exact Hstrip|]. split; [exact Hne|exact Hhd].
Defined.

(** The console of the double: the padded exit is a query, the blank line
    is skipped, and "EXIT" ends the session before the last line is read. *)
Lemma session_example :
  queries_dispatched
    (lr_trace (Demo.session [" exit "; "  "; "EXIT"; "never read"]
                 [LLMReply (Demo.says "bye")]))
  = ["exit"] /\
  lr_end (Demo.session [" exit "; "  "; "EXIT"; "never read"]
            [LLMReply (Demo.says "bye")])
  = Finished /\
  List.length
    (filter is_list_tools
       (lr_trace (Demo.session [" exit "; "  "; "EXIT"; "never read"]
                    [LLMReply (Demo.says "bye")])))
  = 1.
Proof. repeat split; reflexivity. Qed.

(** * The further properties, on the test double *)

Lemma query_before_initialize_witness :
  (client Demo.fresh = false \/ tool_definitions Demo.fresh = None) /\
  exists what,
    qr_trace (Demo.query "q" Demo.fresh [LLMReply Demo.answer])
    = [EvHistoryAppend (MDict "user" "q");
       EvPrint (PError (AttributeError what));
       EvHistoryPop (MDict "user" "q")] /\
    history (qr_agent (Demo.query "q" Demo.fresh [LLMReply Demo.answer]))
    = history Demo.fresh /\
    qr_return (Demo.query "q" Demo.fresh [LLMReply Demo.answer])
    = Returned PyNone /\
    qr_script (Demo.query "q" Demo.fresh [LLMReply Demo.answer])
    = [LLMReply Demo.answer] /\
    qr_provider (Demo.query "q" Demo.fresh [LLMReply Demo.answer]) = 0.
Proof.
  split; [left; reflexivity|].
  apply (query_before_initialize
           Demo.json_loads Demo.json_dumps nat Demo.call_tool
           "q" Demo.fresh 0 [LLMReply Demo.answer]).
  left; reflexivity.
Defined.

Lemma query_keeps_requests_answered_witness :
  well_paired (history Demo.ready) /\
  (forall e,
      lr_end (Demo.loop [LLMReply Demo.one_call; LLMReply Demo.answer]
                (history_append Demo.ready (MDict "user" "q")))
      <> Raised e) /\
  well_paired
    (history (qr_agent (Demo.query "q" Demo.ready
                          [LLMReply Demo.one_call; LLMReply Demo.answer]))).
Proof.
  assert (Hw : well_paired (history Demo.ready))
    by (apply wp_dict; apply wp_nil).
  assert (Hno : forall e,
             lr_end (Demo.loop [LLMReply Demo.one_call; LLMReply Demo.answer]
                       (history_append Demo.ready (MDict "user" "q")))
             <> Raised e)
    by (intros e H; vm_compute in H; discriminate).
  split; [exact Hw|]. split; [exact Hno|].
  exact (query_keeps_requests_answered
           Demo.json_loads Demo.json_dumps nat Demo.call_tool
           "q" Demo.ready 0 [LLMReply Demo.one_call; LLMReply Demo.answer]
           Hw Hno).
Defined.

Lemma failed_query_witness :
  lr_end (Demo.loop Demo.failing_script
            (history_append Demo.ready (MDict "user" "q")))
  = Raised Demo.rate_limit /\
  history (qr_agent (Demo.query "q" Demo.ready Demo.failing_script))
  <> history Demo.ready /\
  exists h m,
    history (qr_agent (Demo.query "q" Demo.ready Demo.failing_script))
    = history Demo.ready ++ MDict "user" "q" :: h ++ [MResponse m] /\
    has_tool_calls m = true /\
    ~ well_paired
        (history (qr_agent (Demo.query "q" Demo.ready Demo.failing_script))).
Proof.
  assert (Hne : history (qr_agent (Demo.query "q" Demo.ready Demo.failing_script))
                <> history Demo.ready)
    by (intros H; vm_compute in H; discriminate).
  split; [reflexivity|]. split; [exact Hne|].
  exact (failed_query_leaves_unanswered_request
           Demo.json_loads Demo.json_dumps nat Demo.call_tool
           "q" Demo.ready 0 Demo.failing_script Demo.rate_limit eq_refl Hne).
Defined.

Lemma failing_call_witness :
  requested_calls Demo.three_calls = [Demo.call1] ++ Demo.bad_call :: [Demo.call2] /\
  Demo.handle Demo.three_calls Demo.ready 0
  = (Stop (Raised (LibraryError "JSONDecodeError")), Demo.ready, 1,
     EvPrint PToolCallRequested :: snd Demo.first_served ++ []) /\
  List.length
    (invocations (EvPrint PToolCallRequested :: snd Demo.first_served ++ []))
  = 1 + 0.
Proof.
  destruct (failing_call_ends_the_turn
              Demo.json_loads Demo.json_dumps nat Demo.call_tool
              Demo.three_calls Demo.ready 0 [Demo.call1] Demo.bad_call
              [Demo.call2] [Demo.entry1] 1 (snd Demo.first_served)
              (LibraryError "JSONDecodeError") 1 []
              eq_refl eq_refl eq_refl) as (Hh & Hn & _).
  split; [reflexivity|]. split; [exact Hh|exact Hn].
Defined.

Lemma non_object_arguments_witness :
  session Demo.ready = true /\
  Demo.json_loads_any (tc_arguments Demo.list_call) = inr (JList []) /\
  exists what,
    handle_response Demo.json_loads_any Demo.json_dumps nat Demo.call_tool
      (Demo.asks [Demo.call1; Demo.list_call; Demo.call2]) Demo.ready 0
    = (Stop (Raised (TypeError what)), Demo.ready, 1,
       EvPrint PToolCallRequested :: snd Demo.first_served_any
       ++ [EvPrint (PCalling "search_docs" (JList []))]) /\
    List.length
      (invocations (EvPrint PToolCallRequested :: snd Demo.first_served_any
                    ++ [EvPrint (PCalling "search_docs" (JList []))]))
    = 1.
Proof.
  split; [reflexivity|]. split; [reflexivity|].
  apply (non_object_arguments_stop_before_the_provider
           Demo.json_loads_any Demo.json_dumps nat Demo.call_tool
           (Demo.asks [Demo.call1; Demo.list_call; Demo.call2]) Demo.ready 0
           [Demo.call1] Demo.list_call [Demo.call2] [Demo.entry1] 1
           (snd Demo.first_served_any) (JList [])).
  - reflexivity.
  - reflexivity.
  - reflexivity.
  - reflexivity.
  - intros kwargs H. discriminate.
Defined.

Lemma startup_failure_witness :
  (ConnectFails Demo.timed_out = ClientFails Demo.timed_out \/
   ConnectFails Demo.timed_out = ParametersFail Demo.timed_out \/
   ConnectFails Demo.timed_out = ConnectFails Demo.timed_out \/
   ConnectFails Demo.timed_out = ListingFails Demo.timed_out) /\
  lr_trace (run_interactive_session
              Demo.json_loads Demo.json_dumps nat Demo.call_tool
              Demo.fresh (ConnectFails Demo.timed_out) Demo.lines 0
              [LLMReply Demo.answer])
  = [EvPrint PInitializing;
     EvConnect ["python"; "elastic_server.py"] "elastic-integration-docs-mcp";
     EvPrint (PCritical Demo.timed_out); EvClose].
Proof.
  assert (Hup : ConnectFails Demo.timed_out = ClientFails Demo.timed_out \/
                ConnectFails Demo.timed_out = ParametersFail Demo.timed_out \/
                ConnectFails Demo.timed_out = ConnectFails Demo.timed_out \/
                ConnectFails Demo.timed_out = ListingFails Demo.timed_out)
    by (right; right; left; reflexivity).
  split; [exact Hup|].
  destruct (startup_failure_ends_session
              Demo.json_loads Demo.json_dumps nat Demo.call_tool
              Demo.fresh (ConnectFails Demo.timed_out) Demo.timed_out
              Demo.lines 0 [LLMReply Demo.answer] Hup)
    as (t & Ht & -> & _).
  exact Ht.
Defined.

(** The console of the double on [Demo.lines]: two queries are dispatched,
    the padded exit and the question; the endpoint answers the first and
    fails on the second; "EXIT" ends the loop. *)
Lemma console_dispatch_example :
  console_queries Demo.lines = ["exit"; "What is X?"] /\
  queries_dispatched
    (lr_trace (Demo.console Demo.lines
                 [LLMReply Demo.answer; LLMRaise Demo.rate_limit]))
  = ["exit"; "What is X?"] /\
  lr_end (Demo.console Demo.lines
            [LLMReply Demo.answer; LLMRaise Demo.rate_limit])
  = Finished.
Proof. repeat split; reflexivity. Qed.

